(** * typeprofile/demo.js: the type-profile session driver and the annotator

    A shallow embedding of [postAsync], [Escape], [CollectProfile] and
    [MarkUpCode] of [typeprofile/demo.js], and the properties of the
    profile-collection and source-annotation pipeline. *)

From Stdlib Require Import List ZArith NArith Lia Bool Arith.
From Stdlib Require Import Sorted Permutation Morphisms Setoid.
From Stdlib Require Ascii String.
Import ListNotations.
Import String.StringSyntax.
Delimit Scope string_scope with string.

Set Implicit Arguments.

(** ** JavaScript strings

    A JavaScript string is a sequence of UTF-16 code units.  No arithmetic is
    done on code units by this program, only comparisons, so a code unit is
    kept as its number. *)

Definition char16 := N.
Definition jsstring := list char16.

Definition char16_eqb (a b : char16) : bool := N.eqb a b.
Arguments char16_eqb !a !b /.

Fixpoint jsstring_eqb (a b : jsstring) : bool :=
  match a, b with
  | [], [] => true
  | x :: a', y :: b' => char16_eqb x y && jsstring_eqb a' b'
  | _, _ => false
  end.

(** String literals of the source, written as Rocq strings. *)
Fixpoint str (s : String.string) : jsstring :=
  match s with
  | String.EmptyString => []
  | String.String c s' => Ascii.N_of_ascii c :: str s'
  end.
Arguments str s%_string.

Definition AMP : char16 := 38%N.
Definition SPACE : char16 := 32%N.
Definition LT : char16 := 60%N.
Definition GT : char16 := 62%N.
Definition CR : char16 := 13%N.
Definition LF : char16 := 10%N.
Definition DQUOTE : char16 := 34%N.

(** ** [String.prototype.substring]

    Both arguments are clamped to [0 .. length] and swapped when the first
    exceeds the second. *)
Definition substring (s : jsstring) (start end_ : Z) : jsstring :=
  let len := Z.of_nat (length s) in
  let finalStart := Z.min (Z.max start 0) len in
  let finalEnd := Z.min (Z.max end_ 0) len in
  let from := Z.min finalStart finalEnd in
  let to := Z.max finalStart finalEnd in
  firstn (Z.to_nat (to - from)) (skipn (Z.to_nat from) s).

(** ** [string.replace(new RegExp(pattern, "g"), replacement)]

    Every pattern of [Escape] is free of regular-expression metacharacters
    and every replacement is free of [$], so the call is a global replacement
    of a literal: the string is scanned from the left, a match is replaced
    and the scan resumes after it, so matches never overlap.  No pattern of
    the program is empty. *)

Fixpoint starts_with (pattern s : jsstring) : bool :=
  match pattern, s with
  | [], _ => true
  | p :: pattern', c :: s' => char16_eqb p c && starts_with pattern' s'
  | _ :: _, [] => false
  end.

(** [skip] counts the code units of the current match still to be passed. *)
Fixpoint replace_from (pattern replacement : jsstring) (skip : nat)
    (s : jsstring) : jsstring :=
  match s with
  | [] => []
  | c :: s' =>
      match skip with
      | S k => replace_from pattern replacement k s'
      | O =>
          if starts_with pattern s
          then replacement ++
               replace_from pattern replacement (pred (length pattern)) s'
          else c :: replace_from pattern replacement 0 s'
      end
  end.

Definition replace_global (pattern replacement s : jsstring) : jsstring :=
  replace_from pattern replacement 0 s.

(** ** [Escape] *)

Definition BR : jsstring := str "<br/>".

Definition escape_table : list (jsstring * jsstring) :=
  [ ([AMP], str "&amp;");
    ([SPACE], str "&nbsp;");
    ([LT], str "&lt;");
    ([GT], str "&gt;");
    ([CR; LF], BR);
    ([LF], BR);
    ([DQUOTE], str "&quot;") ].

Definition Escape (string : jsstring) : jsstring :=
  fold_left
    (fun string '(pattern, replacement) =>
       replace_global pattern replacement string)
    escape_table string.

(** ** The type-profile data of the inspector protocol

    [Profiler.takeTypeProfile] answers with a list of script profiles, each
    with the identifier of its script and a list of entries; an entry has an
    offset into the source and the types seen there. *)

Record TypeObject := { name : jsstring }.

Record TypeProfileEntry := { offset : Z; types : list TypeObject }.

Record ScriptTypeProfile :=
  { scriptId : jsstring; url : jsstring; entries : list TypeProfileEntry }.

(** ** [Array.prototype.sort]

    The comparison function answers a number whose sign orders its
    arguments.  The sort is the stable one of ECMAScript 2019 and later: an
    element is placed before the first element of the sorted rest that it
    does not follow. *)
Section Sort.
Variable A : Type.
Variable compare : A -> A -> Z.

Fixpoint sort_insert (x : A) (l : list A) : list A :=
  match l with
  | [] => [x]
  | y :: l' =>
      if (compare x y <=? 0)%Z then x :: y :: l'
      else y :: sort_insert x l'
  end.

Fixpoint sort (l : list A) : list A :=
  match l with
  | [] => []
  | x :: l' => sort_insert x (sort l')
  end.
End Sort.

(** ** [MarkUpCode] *)

(** The two variables the helper functions close over. *)
Record MarkUp := { result : jsstring; cursor : Z }.

Definition CopySourceUpTo (source : jsstring) (up_to : Z) (st : MarkUp)
  : MarkUp :=
  {| result := result st ++ Escape (substring source (cursor st) up_to);
     cursor := up_to |}.

Definition append (s : jsstring) (st : MarkUp) : MarkUp :=
  {| result := result st ++ s; cursor := cursor st |}.

Definition SPAN_OPEN : jsstring :=
  str "<span style=" ++ [DQUOTE] ++
  str "background-color: rgb(255, 0, 0); color: white" ++ [DQUOTE].

Definition PrintType (type : TypeObject) (st : MarkUp) : MarkUp :=
  let st := append SPAN_OPEN st in
  let st := append (str ">") st in
  let st := append (name type) st in
  let st := append (str "</span>") st in
  append (str " ") st.

Definition flatten (profile : list ScriptTypeProfile)
  : list TypeProfileEntry :=
  fold_left (fun result next => result ++ entries next) profile [].

Definition by_offset (a b : TypeProfileEntry) : Z := (offset a - offset b)%Z.

Definition sorted_entries (profile : list ScriptTypeProfile)
  : list TypeProfileEntry :=
  sort by_offset (flatten profile).

(** [let result = ""; let cursor = 0;] *)
Definition start : MarkUp := {| result := []; cursor := 0 |}.

Definition visit (source : jsstring) (st : MarkUp) (entry : TypeProfileEntry)
  : MarkUp :=
  fold_left (fun st type => PrintType type st) (types entry)
            (CopySourceUpTo source (offset entry) st).

Definition MarkUpCode (profile : list ScriptTypeProfile) (source : jsstring)
  : jsstring :=
  let entries := sorted_entries profile in
  let st := start in
  let st := fold_left (visit source) entries st in
  let st := CopySourceUpTo source (Z.of_nat (length source)) st in
  result st.

(** ** The inspector session

    The commands [CollectProfile] posts, with their parameters. *)
Inductive Command :=
| Runtime_enable
| Profiler_enable
| Profiler_startTypeProfile
| Runtime_compileScript (expression sourceURL : jsstring)
    (persistScript : bool)
| Runtime_runScript (script : option jsstring)
| HeapProfiler_collectGarbage
| Profiler_takeTypeProfile
| Profiler_stopTypeProfile
| Profiler_disable
| Runtime_disable.

(** A [Runtime.consoleAPICalled] notification: [params.type], and the text
    of [params.args[0].value] in a template literal; [None] when [args] is
    empty, so that [args[0]] is [undefined]. *)
Record Message :=
  { params_type : jsstring; params_value : option jsstring }.

(** [result.exceptionDetails.exception.description]: the description is
    optional in the protocol, and [None] stands for [undefined] (the
    exception is a string, a number, a boolean, [null] or [undefined]). *)
Record ExceptionDetails := { description : option jsstring }.

(** The result object of a command; a field the remote side leaves out is
    [undefined]. *)
Record CommandResult :=
  { res_exceptionDetails : option ExceptionDetails;
    res_scriptId : option jsstring;
    res_result : option (list ScriptTypeProfile) }.

(** What the session does on a [post]: the notifications it emits while the
    command is pending, then the two arguments of the callback ([error] is
    [None] for [null]). *)
Record Reply :=
  { notifications : list Message;
    error : option jsstring;
    reply_result : CommandResult }.

(** The remote side: any state, any answer to [connect] (an error when it
    throws) and to each posted command. *)
Record Remote :=
  { RemoteState : Type;
    remote_connect : RemoteState -> option jsstring * RemoteState;
    remote_post : RemoteState -> Command -> Reply * RemoteState }.

(** The calls made on the session object, in order. *)
Inductive Event :=
| EvConnect
| EvPost (c : Command) (r : Reply)
| EvOn
| EvDisconnect.

(** What a promise is rejected with, or what a call throws. *)
Inductive Reason :=
| RemoteError (e : jsstring)
| ExceptionDescription (d : option jsstring)
| ConnectError (e : jsstring)
| TypeError.

(** The callback [postAsync] hands to [session.post]: it rejects with the
    error when there is one, else with the description of the exception the
    result carries, and resolves with the result otherwise. *)
Definition callback (error : option jsstring) (result : CommandResult)
  : Reason + CommandResult :=
  match error with
  | Some e => inl (RemoteError e)
  | None =>
      match res_exceptionDetails result with
      | Some details => inl (ExceptionDescription (description details))
      | None => inr result
      end
  end.

Section Driver.
Variable R : Remote.

(** The session and the local variables of one call of [CollectProfile]. *)
Record World :=
  { remote : RemoteState R;
    trace : list Event;
    listening : bool;
    messages : list Message;
    profile : option (list ScriptTypeProfile) }.

(** [new inspector.Session()], [let messages = []],
    [let profile = undefined]. *)
Definition new_session (r : RemoteState R) : World :=
  {| remote := r; trace := []; listening := false; messages := [];
     profile := None |}.

(** Computations that change the world and either throw or return. *)
Definition M (A : Type) : Type := World -> (Reason + A) * World.

Definition ret (A : Type) (a : A) : M A := fun w => (inr a, w).

Definition throw (A : Type) (e : Reason) : M A := fun w => (inl e, w).

Definition bind (A B : Type) (m : M A) (k : A -> M B) : M B :=
  fun w =>
    match m w with
    | (inl e, w') => (inl e, w')
    | (inr a, w') => k a w'
    end.

(** [try { body } finally { finalizer }]: the finalizer runs on every
    exit of the body; the exit of the body stands unless the finalizer
    throws. *)
Definition try_finally (A : Type) (body : M A) (finalizer : M unit) : M A :=
  fun w =>
    match body w with
    | (r, w') =>
        match finalizer w' with
        | (inl e, w'') => (inl e, w'')
        | (inr _, w'') => (r, w'')
        end
    end.

Definition log (e : Event) (w : World) : World :=
  {| remote := remote w; trace := trace w ++ [e];
     listening := listening w; messages := messages w;
     profile := profile w |}.

(** [session.connect()], which throws when the session cannot be
    opened. *)
Definition connect : M unit :=
  fun w =>
    let (fault, r) := remote_connect R (remote w) in
    let w' :=
      {| remote := r; trace := trace w ++ [EvConnect];
         listening := listening w; messages := messages w;
         profile := profile w |} in
    match fault with
    | Some e => (inl (ConnectError e), w')
    | None => (inr tt, w')
    end.

(** [session.disconnect()] closes the session and returns. *)
Definition disconnect : M unit :=
  fun w => (inr tt, log EvDisconnect w).

(** [session.on('Runtime.consoleAPICalled', message =>
    messages.push(message))] *)
Definition on_consoleAPICalled : M unit :=
  fun w =>
    (inr tt,
     {| remote := remote w; trace := trace w ++ [EvOn];
        listening := true; messages := messages w;
        profile := profile w |}).

(** [await session.postAsync(command)]: the command is posted, the
    notifications emitted meanwhile reach the listener when there is one,
    and the callback settles the promise.  A command that is never answered
    leaves the call pending for ever: such a call has no outcome and no
    world after it, and is not a computation of [M]. *)
Definition postAsync (c : Command) : M CommandResult :=
  fun w =>
    let (reply, r) := remote_post R (remote w) c in
    let w' :=
      {| remote := r; trace := trace w ++ [EvPost c reply];
         listening := listening w;
         messages :=
           if listening w then messages w ++ notifications reply
           else messages w;
         profile := profile w |} in
    (callback (error reply) (reply_result reply), w').

(** [result.filter] throws a [TypeError] when [result] is [undefined]. *)
Definition defined (A : Type) (v : option A) : M A :=
  match v with
  | Some a => ret a
  | None => throw A TypeError
  end.

Definition set_profile (p : list ScriptTypeProfile) : M unit :=
  fun w =>
    (inr tt,
     {| remote := remote w; trace := trace w; listening := listening w;
        messages := messages w; profile := Some p |}).

Definition get : M World := fun w => (inr w, w).
End Driver.

Arguments ret {R A} a.
Arguments throw {R A} e.
Arguments bind {R A B} m k.
Arguments try_finally {R A} body finalizer.
Arguments defined {R A} v.
Arguments connect {R}.
Arguments disconnect {R}.
Arguments on_consoleAPICalled {R}.
Arguments postAsync {R} c.
Arguments set_profile {R} p.
Arguments get {R}.

Notation "x <- m ;; k" := (bind m (fun x => k))
  (at level 61, m at next level, right associativity).
Notation "m ;; k" := (bind m (fun _ => k))
  (at level 61, right associativity).

(** [x.scriptId == scriptId]: a string equals a string with the same code
    units and never equals [undefined]. *)
Definition loose_eq (a : jsstring) (b : option jsstring) : bool :=
  match b with
  | Some b' => jsstring_eqb a b'
  | None => false
  end.

(** The [try] block of [CollectProfile]. *)
Definition protocol (R : Remote) (source : jsstring) : M R unit :=
  connect ;;
  postAsync Runtime_enable ;;
  postAsync Profiler_enable ;;
  postAsync Profiler_startTypeProfile ;;
  compiled <- postAsync (Runtime_compileScript source (str "test") true) ;;
  let script := res_scriptId compiled in
  on_consoleAPICalled ;;
  postAsync (Runtime_runScript script) ;;
  postAsync HeapProfiler_collectGarbage ;;
  taken <- postAsync Profiler_takeTypeProfile ;;
  result <- defined (res_result taken) ;;
  set_profile (filter (fun x => loose_eq (scriptId x) script) result) ;;
  postAsync Profiler_stopTypeProfile ;;
  postAsync Profiler_disable ;;
  postAsync Runtime_disable ;;
  ret tt.
Arguments protocol : clear implicits.

Definition CollectProfile (R : Remote) (source : jsstring)
  : M R (option (list ScriptTypeProfile) * list Message) :=
  try_finally (protocol R source) disconnect ;;
  w <- get ;;
  ret (profile w, messages w).

Arguments CollectProfile : clear implicits.
Arguments new_session : clear implicits.

(** One call of [CollectProfile] on a fresh session. *)
Definition run_CollectProfile (R : Remote) (r : RemoteState R)
    (source : jsstring) :=
  CollectProfile R source (new_session R r).
Arguments run_CollectProfile : clear implicits.

(** ** Notions the properties are stated with *)

(** What a global replacement of a pattern of one code unit does to a code
    unit. *)
Definition subst1 (p : char16) (replacement : jsstring) (c : char16)
  : jsstring :=
  if char16_eqb p c then replacement else [c].

(** The first four substitutions of [Escape] on one code unit. *)
Definition escape4 (c : char16) : jsstring :=
  flat_map (subst1 GT (str "&gt;"))
    (flat_map (subst1 LT (str "&lt;"))
       (flat_map (subst1 SPACE (str "&nbsp;")) (subst1 AMP (str "&amp;") c))).

(** The last two substitutions of [Escape]. *)
Definition escape_tail (s : jsstring) : jsstring :=
  flat_map (subst1 DQUOTE (str "&quot;")) (flat_map (subst1 LF BR) s).

(** The escape of one code unit that is not part of a CR+LF pair. *)
Definition escape_unit (c : char16) : jsstring :=
  if char16_eqb c AMP then str "&amp;"
  else if char16_eqb c SPACE then str "&nbsp;"
  else if char16_eqb c LT then str "&lt;"
  else if char16_eqb c GT then str "&gt;"
  else if char16_eqb c LF then BR
  else if char16_eqb c DQUOTE then str "&quot;"
  else [c].

(** [Escape] as one pass from the left: a CR+LF pair becomes one line break,
    every other code unit its own escape. *)
Fixpoint escape_scan (s : jsstring) : jsstring :=
  match s with
  | [] => []
  | c :: s' =>
      match s' with
      | d :: s'' =>
          if char16_eqb c CR && char16_eqb d LF then BR ++ escape_scan s''
          else escape_unit c ++ escape_scan s'
      | [] => escape_unit c
      end
  end.

(** The escape of the code units among [coded], the others kept: what is
    left of [escape_unit] after part of the substitutions is reverted. *)
Definition partly_escaped (coded : list char16) (c : char16) : jsstring :=
  if existsb (char16_eqb c) coded then escape_unit c else [c].

(** The order of the keys. *)
Definition key_le (A : Type) (key : A -> Z) (a b : A) : Prop :=
  (key a <= key b)%Z.

(** [substring] clamps a position to the string. *)
Definition clamp (s : jsstring) (z : Z) : nat :=
  Z.to_nat (Z.min (Z.max z 0) (Z.of_nat (length s))).

(** [pattern] occurs somewhere in [s]. *)
Fixpoint occurs (pattern s : jsstring) : bool :=
  starts_with pattern s ||
  match s with
  | [] => false
  | _ :: s' => occurs pattern s'
  end.

(** A safe input of the specification: none of the replacement outputs of
    [Escape] occurs in it. *)
Definition safe_input (s : jsstring) : bool :=
  forallb (fun '(_, replacement) => negb (occurs replacement s)) escape_table.

(** The reverse substitution of the specification: the table of [Escape]
    read backwards, each replacement turned back into its pattern. *)
Definition Unescape (s : jsstring) : jsstring :=
  fold_left
    (fun s '(pattern, replacement) => replace_global replacement pattern s)
    (rev escape_table) s.

(** The marker of a type, as one string. *)
Definition marker (type : TypeObject) : jsstring :=
  str "<span style=" ++ [DQUOTE] ++
  str "background-color: rgb(255, 0, 0); color: white" ++ [DQUOTE] ++
  str ">" ++ name type ++ str "</span>" ++ str " ".

Definition markers (entry : TypeProfileEntry) : jsstring :=
  flat_map marker (types entry).

(** The values [cursor] takes during the walk of [MarkUpCode]: before the
    loop, after each entry, and after the last [CopySourceUpTo]. *)
Fixpoint cursors (source : jsstring) (st : MarkUp)
    (entries : list TypeProfileEntry) : list Z :=
  cursor st ::
  match entries with
  | [] => [cursor (CopySourceUpTo source (Z.of_nat (length source)) st)]
  | entry :: entries' => cursors source (visit source st entry) entries'
  end.

(** The pieces of the source the calls of [CopySourceUpTo] hand to [Escape],
    in the order of the calls. *)
Fixpoint copies (source : jsstring) (st : MarkUp)
    (entries : list TypeProfileEntry) : list jsstring :=
  match entries with
  | [] => [substring source (cursor st) (Z.of_nat (length source))]
  | entry :: entries' =>
      substring source (cursor st) (offset entry) ::
      copies source (visit source st entry) entries'
  end.

(** Texts and marks in turn, starting with a text. *)
Fixpoint interleave (texts marks : list jsstring) : jsstring :=
  match texts with
  | [] => []
  | t :: texts' =>
      match marks with
      | [] => t ++ interleave texts' []
      | m :: marks' => t ++ m ++ interleave texts' marks'
      end
  end.

Definition in_source (source : jsstring) (entry : TypeProfileEntry) : Prop :=
  (0 <= offset entry <= Z.of_nat (length source))%Z.

(** The number of calls of [disconnect] in a trace. *)
Definition is_disconnect (e : Event) : bool :=
  match e with
  | EvDisconnect => true
  | _ => false
  end.

Definition disconnects (t : list Event) : nat :=
  length (filter is_disconnect t).

(** The callback rejects the promise of a reply with [reason]. *)
Definition rejects (reply : Reply) (reason : Reason) : Prop :=
  callback (error reply) (reply_result reply) = inl reason.

(** No command of the trace was rejected. *)
Definition clean (t : list Event) : Prop :=
  forall c reply reason, In (EvPost c reply) t -> ~ rejects reply reason.

(** The only rejected command of the trace is its last event, and it was
    rejected with [reason]. *)
Definition aborted (reason : Reason) (t : list Event) : Prop :=
  forall c reply reason',
    In (EvPost c reply) t -> rejects reply reason' ->
    reason' = reason /\ exists before, t = before ++ [EvPost c reply].

(** A computation that, started after commands that all succeeded, either
    returns after commands that all succeeded or throws right after the
    first rejected one, with its reason. *)
Definition aborting (R : Remote) (A : Type) (m : M R A) : Prop :=
  forall w,
    clean (trace w) ->
    match m w with
    | (inr _, w') => clean (trace w')
    | (inl reason, w') => aborted reason (trace w')
    end.

(** A computation that does not call [disconnect]. *)
Definition connected (R : Remote) (A : Type) (m : M R A) : Prop :=
  forall w, disconnects (trace (snd (m w))) = disconnects (trace w).

(** A remote side without state that answers each command by a table. *)
Definition scripted (answer : Command -> Reply) : Remote :=
  {| RemoteState := unit;
     remote_connect := fun _ => (None, tt);
     remote_post := fun _ c => (answer c, tt) |}.

Definition plain_result : CommandResult :=
  {| res_exceptionDetails := None; res_scriptId := None;
     res_result := None |}.

Definition plain_reply : Reply :=
  {| notifications := []; error := None; reply_result := plain_result |}.

Definition number_at (o : Z) : TypeProfileEntry :=
  {| offset := o; types := [ {| name := str "number" |} ] |}.

Definition sample_profiles : list ScriptTypeProfile :=
  [ {| scriptId := str "41"; url := str "old"; entries := [number_at 0] |};
    {| scriptId := str "42"; url := str "test"; entries := [number_at 4] |} ].

Definition kept_profiles : list ScriptTypeProfile :=
  [ {| scriptId := str "42"; url := str "test"; entries := [number_at 4] |} ].

Definition logged : list Message :=
  [ {| params_type := str "log"; params_value := Some (str "hi") |} ].

(** A run in which every command succeeds: the script gets the identifier
    42, logs one message, and the harvest also holds the profile of an
    older script. *)
Definition answer_ok (c : Command) : Reply :=
  match c with
  | Runtime_compileScript _ _ _ =>
      {| notifications := []; error := None;
         reply_result :=
           {| res_exceptionDetails := None; res_scriptId := Some (str "42");
              res_result := None |} |}
  | Runtime_runScript _ =>
      {| notifications := logged; error := None;
         reply_result := plain_result |}
  | Profiler_takeTypeProfile =>
      {| notifications := []; error := None;
         reply_result :=
           {| res_exceptionDetails := None; res_scriptId := None;
              res_result := Some sample_profiles |} |}
  | _ => plain_reply
  end.

(** A run in which the script throws. *)
Definition answer_throw (c : Command) : Reply :=
  match c with
  | Runtime_runScript _ =>
      {| notifications := []; error := None;
         reply_result :=
           {| res_exceptionDetails :=
                Some {| description := Some (str "Error: boom") |};
              res_scriptId := None; res_result := None |} |}
  | _ => answer_ok c
  end.

(** ** [template.replace(pattern, replacement)] with a string pattern

    The first occurrence of the pattern is replaced, if there is one.  The
    replacement is a template: [$$] stands for a dollar, [$&] for the match,
    [$`] for the text before the match and [$'] for the text after it; a
    pattern that is a string has no groups, so a dollar before anything else
    stands for itself. *)

Definition DOLLAR : char16 := 36%N.
Definition BACKTICK : char16 := 96%N.
Definition APOSTROPHE : char16 := 39%N.

Fixpoint index_of (pattern s : jsstring) : option nat :=
  if starts_with pattern s then Some 0
  else
    match s with
    | [] => None
    | _ :: s' => option_map S (index_of pattern s')
    end.

Fixpoint GetSubstitution (matched before after replacement : jsstring)
  : jsstring :=
  match replacement with
  | [] => []
  | c :: r =>
      if char16_eqb c DOLLAR then
        match r with
        | [] => [c]
        | d :: r' =>
            if char16_eqb d DOLLAR then
              DOLLAR :: GetSubstitution matched before after r'
            else if char16_eqb d AMP then
              matched ++ GetSubstitution matched before after r'
            else if char16_eqb d BACKTICK then
              before ++ GetSubstitution matched before after r'
            else if char16_eqb d APOSTROPHE then
              after ++ GetSubstitution matched before after r'
            else c :: GetSubstitution matched before after r
        end
      else c :: GetSubstitution matched before after r
  end.

Definition replace_first (pattern replacement s : jsstring) : jsstring :=
  match index_of pattern s with
  | None => s
  | Some pos =>
      let before := firstn pos s in
      let after := skipn (pos + length pattern) s in
      before ++ GetSubstitution pattern before after replacement ++ after
  end.

(** ** [ReadFile], [GetPostBody] and [Server] *)

(** The request: its method and the chunks its [data] events deliver, as
    the strings [body += data] appends. *)
Record Request := { method : jsstring; data : list jsstring }.

(** What [response.writeHead] and [response.end] are called with. *)
Record Response :=
  { statusCode : Z; content_type : jsstring; body : jsstring }.

(** One turn of the loop over the messages; [args[0].value] throws a
    [TypeError] when the message has no argument. *)
Definition print_message (message_log : jsstring) (message : Message)
  : option jsstring :=
  let message_log :=
    message_log ++ str "console." ++ params_type message ++ str ": " in
  match params_value message with
  | Some value => Some (message_log ++ value ++ str "<br/>")
  | None => None
  end.

(** The loop over the messages: the log, or [None] when a turn throws. *)
Fixpoint print_messages (messages : list Message) (message_log : jsstring)
  : option jsstring :=
  match messages with
  | [] => Some message_log
  | message :: messages' =>
      match print_message message_log message with
      | Some message_log' => print_messages messages' message_log'
      | None => None
      end
  end.

(** The page: the three placeholders of the template replaced in turn. *)
Definition fill (template script result message_log : jsstring) : jsstring :=
  fold_left
    (fun template '(pattern, replacement) =>
       replace_first pattern replacement template)
    [ (str "SCRIPT", script);
      (str "RESULT", result);
      (str "CONSOLE", message_log) ]
    template.

(** What a call of [Server] is rejected with: the error of [ReadFile], or
    what was thrown. *)
Inductive Failure :=
| ReadError (error : jsstring)
| Thrown (e : Reason).

(** The local variables [script], [result] and [message_log]. *)
Record Page :=
  { page_script : jsstring; page_result : jsstring; page_log : jsstring }.

Section Server.
Variable R : Remote.

(** [fs.readFile(file_name, "utf8", callback)]: the error or the content. *)
Variable readFile : jsstring -> jsstring + jsstring.

(** [query.parse(body).script] when it is a string.  [None]: it is not
    one (the field is absent or repeated), or the parser at hand does not
    describe the body; the script is then no string, and such a request is
    outside this embedding, whose commands carry strings. *)
Variable query_script : jsstring -> option jsstring.

(** [e.toString()] of a caught object. *)
Variable error_toString : Reason -> jsstring.

(** [ReadFile] rejects with the error and resolves with the content. *)
Definition ReadFile (file_name : jsstring) : jsstring + jsstring :=
  match readFile file_name with
  | inl error => inl error
  | inr result => inr result
  end.

(** [GetPostBody]: the chunks appended in order, then parsed. *)
Definition GetPostBody (request : Request) : option jsstring :=
  query_script (fold_left (fun body chunk => body ++ chunk) (data request) []).

(** [e.toString()]: a description is a string and is its own text;
    [undefined] has no method to call, and the call throws. *)
Definition toString (e : Reason) : option jsstring :=
  match e with
  | ExceptionDescription (Some d) => Some d
  | ExceptionDescription None => None
  | _ => Some (error_toString e)
  end.

(** The [catch] block, [message_log = Escape(e.toString())]: the other
    variables keep what the [try] block gave them; the [TypeError] of
    [toString] leaves [Server]. *)
Definition catch (e : Reason) (page : Page) : Reason + Page :=
  match toString e with
  | Some text =>
      inr {| page_script := page_script page;
             page_result := page_result page;
             page_log := Escape text |}
  | None => inl TypeError
  end.

(** The [try] block of the [POST] branch and its [catch].  [script] is set
    before [CollectProfile] is called and [result] after it returned, before
    the loop over the messages; [MarkUpCode] throws a [TypeError] on an
    undefined profile. *)
Definition collect (r : RemoteState R) (script : jsstring)
  : (Reason + Page) * World R :=
  match run_CollectProfile R r script with
  | (inr (Some profile, messages), w) =>
      let result := MarkUpCode profile script in
      match print_messages messages [] with
      | Some message_log =>
          (inr {| page_script := script; page_result := result;
                  page_log := message_log |}, w)
      | None =>
          (catch TypeError
             {| page_script := script; page_result := result;
                page_log := [] |}, w)
      end
  | (inr (None, _), w) =>
      (catch TypeError
         {| page_script := script; page_result := []; page_log := [] |}, w)
  | (inl e, w) =>
      (catch e
         {| page_script := script; page_result := []; page_log := [] |}, w)
  end.

(** What follows the [if]: the template is read and filled, and the
    response sent. *)
Definition respond (page : Reason + Page) : Failure + Response :=
  match page with
  | inl e => inl (Thrown e)
  | inr page =>
      match ReadFile (str "typeprofile/template.html") with
      | inl error => inl (ReadError error)
      | inr template =>
          inr {| statusCode := 200;
                 content_type := str "text/html";
                 body := fill template (page_script page)
                              (page_result page) (page_log page) |}
      end
  end.

(** [Server]: the response sent, or what the call is rejected with, and
    the session of the request when one was opened; [None] for a request
    outside the embedding. *)
Definition Server (r : RemoteState R) (request : Request)
  : option ((Failure + Response) * option (World R)) :=
  if jsstring_eqb (method request) (str "POST") then
    match GetPostBody request with
    | Some script =>
        let (page, w) := collect r script in
        Some (respond page, Some w)
    | None => None
    end
  else
    match ReadFile (str "typeprofile/example.js") with
    | inl error => Some (inl (ReadError error), None)
    | inr script =>
        Some (respond (inr {| page_script := script; page_result := [];
                              page_log := [] |}), None)
    end.
End Server.

(** A string without a dollar. *)
Definition plain (s : jsstring) : Prop := Forall (fun c => c <> DOLLAR) s.

(** The commands of [CollectProfile], in the order of the source. *)
Definition all_commands (source : jsstring) (script : option jsstring)
  : list Command :=
  [ Runtime_enable; Profiler_enable; Profiler_startTypeProfile;
    Runtime_compileScript source (str "test") true;
    Runtime_runScript script;
    HeapProfiler_collectGarbage; Profiler_takeTypeProfile;
    Profiler_stopTypeProfile; Profiler_disable; Runtime_disable ].

(** The commands posted in a trace, in order. *)
Fixpoint posted (t : list Event) : list Command :=
  match t with
  | [] => []
  | EvPost c _ :: t' => c :: posted t'
  | _ :: t' => posted t'
  end.

(** A file system with the two files of the program. *)
Definition two_files (example template : jsstring) (file_name : jsstring)
  : jsstring + jsstring :=
  if jsstring_eqb file_name (str "typeprofile/example.js") then inr example
  else if jsstring_eqb file_name (str "typeprofile/template.html")
       then inr template
       else inl (str "ENOENT").

Definition page_template : jsstring :=
  str "<pre>SCRIPT</pre><div>RESULT</div><p>CONSOLE</p>".

(** A remote side whose [connect] throws. *)
Definition refusing : Remote :=
  {| RemoteState := unit;
     remote_connect := fun _ => (Some (str "already connected"), tt);
     remote_post := fun _ c => (answer_ok c, tt) |}.

Definition plainb (s : jsstring) : bool :=
  forallb (fun c => negb (char16_eqb c DOLLAR)) s.

Definition get_request : Request := {| method := str "GET"; data := [] |}.

(** A form with the one field [script=x;], in two chunks. *)
Definition post_request : Request :=
  {| method := str "POST"; data := [str "scri"; str "pt=x;"] |}.

(** The script field of the bodies [script=text] whose text needs no
    decoding and ends the form (no [&], [%], [+] or [=] in it); other bodies
    are not described. *)
Definition script_after_key (body : jsstring) : option jsstring :=
  if starts_with (str "script=") body then
    let text := skipn 7 body in
    if existsb
         (fun c => char16_eqb c AMP || char16_eqb c 37%N ||
                   char16_eqb c 43%N || char16_eqb c 61%N) text
    then None else Some text
  else None.

(** A run in which the compilation is answered with an error. *)
Definition answer_error (c : Command) : Reply :=
  match c with
  | Runtime_compileScript _ _ _ =>
      {| notifications := []; error := Some (str "Invalid parameters");
         reply_result := plain_result |}
  | _ => answer_ok c
  end.

(** A run in which the script throws a string: the exception has no
    description. *)
Definition answer_throw_string (c : Command) : Reply :=
  match c with
  | Runtime_runScript _ =>
      {| notifications := []; error := None;
         reply_result :=
           {| res_exceptionDetails := Some {| description := None |};
              res_scriptId := None; res_result := None |} |}
  | _ => answer_ok c
  end.

(** A run in which the script calls [console.log()] without arguments. *)
Definition answer_bare_log (c : Command) : Reply :=
  match c with
  | Runtime_runScript _ =>
      {| notifications :=
           [ {| params_type := str "log"; params_value := None |} ];
         error := None; reply_result := plain_result |}
  | _ => answer_ok c
  end.

Definition error_text (e : Reason) : jsstring := str "Error".

(** * Properties *)

(** ** Code units *)

Lemma char16_eqb_eq (a b : char16) : char16_eqb a b = true <-> a = b.
Proof. apply N.eqb_eq. Qed.

Lemma char16_eqb_refl (a : char16) : char16_eqb a a = true.
Proof. apply N.eqb_refl. Qed.

Lemma char16_eqb_neq (a b : char16) : a <> b -> char16_eqb a b = false.
Proof. intro H. apply N.eqb_neq. exact H. Qed.

Lemma char16_eqb_sym (a b : char16) : char16_eqb a b = char16_eqb b a.
Proof. apply N.eqb_sym. Qed.

Lemma jsstring_eqb_eq (a b : jsstring) : jsstring_eqb a b = true <-> a = b.
Proof.
  revert b. induction a as [|x a IH]; intros [|y b]; simpl;
    try (split; [discriminate | discriminate]); try (split; reflexivity).
  rewrite andb_true_iff, char16_eqb_eq, IH.
  split; [intros [-> ->]; reflexivity | intros H; inversion H; auto].
Qed.

(** ** Global replacement *)

Lemma starts_with_app (pattern t : jsstring) :
  starts_with pattern (pattern ++ t) = true.
Proof.
  induction pattern as [|p ps IH]; simpl; [reflexivity|].
  now rewrite char16_eqb_refl, IH.
Qed.

Lemma replace_from_skip (pattern replacement x t : jsstring) :
  replace_from pattern replacement (length x) (x ++ t) =
  replace_from pattern replacement 0 t.
Proof.
  induction x as [|c x IH]; simpl; [|exact IH].
  destruct t; reflexivity.
Qed.

(** A match at the head is replaced and the scan resumes after it. *)
Lemma replace_global_match (pattern replacement t : jsstring) :
  pattern <> [] ->
  replace_global pattern replacement (pattern ++ t) =
  replacement ++ replace_global pattern replacement t.
Proof.
  unfold replace_global. intro Hne.
  destruct pattern as [|p ps]; [contradiction|].
  change ((p :: ps) ++ t) with (p :: (ps ++ t)).
  cbn [replace_from].
  change (p :: ps ++ t) with ((p :: ps) ++ t).
  rewrite starts_with_app. cbn [length pred]. f_equal.
  apply replace_from_skip.
Qed.

(** Where the pattern does not match, one code unit is kept. *)
Lemma replace_global_miss (pattern replacement : jsstring) (c : char16)
    (t : jsstring) :
  starts_with pattern (c :: t) = false ->
  replace_global pattern replacement (c :: t) =
  c :: replace_global pattern replacement t.
Proof.
  unfold replace_global. intro H. cbn [replace_from]. now rewrite H.
Qed.

(** Code units that cannot start a match are kept as they are. *)
Lemma replace_global_pass (p : char16) (ps replacement x t : jsstring) :
  Forall (fun c => c <> p) x ->
  replace_global (p :: ps) replacement (x ++ t) =
  x ++ replace_global (p :: ps) replacement t.
Proof.
  induction 1 as [|c x Hc _ IH]; [reflexivity|].
  change ((c :: x) ++ t) with (c :: (x ++ t)).
  rewrite replace_global_miss, IH; [reflexivity|].
  simpl. rewrite (char16_eqb_neq (a:=p) (b:=c)); [reflexivity|congruence].
Qed.

Lemma replace_global_single (p : char16) (replacement s : jsstring) :
  replace_global [p] replacement s = flat_map (subst1 p replacement) s.
Proof.
  induction s as [|c s IH]; [reflexivity|].
  simpl flat_map. unfold subst1 at 1.
  destruct (char16_eqb p c) eqn:E.
  - apply char16_eqb_eq in E. subst c.
    change (p :: s) with ([p] ++ s).
    rewrite replace_global_match by discriminate. now rewrite IH.
  - rewrite replace_global_miss, IH; [reflexivity|].
    simpl. now rewrite E.
Qed.

(** ** [Escape] as a single pass *)

Lemma flat_map_flat_map (A B C : Type) (f : A -> list B) (g : B -> list C)
    (l : list A) :
  flat_map g (flat_map f l) = flat_map (fun a => flat_map g (f a)) l.
Proof.
  induction l as [|a l IH]; simpl; [reflexivity|].
  now rewrite flat_map_app, IH.
Qed.

Lemma Escape_passes (s : jsstring) :
  Escape s = escape_tail (replace_global [CR; LF] BR (flat_map escape4 s)).
Proof.
  unfold Escape, escape_table, escape_tail. cbn [fold_left].
  rewrite !replace_global_single. do 2 f_equal.
  rewrite (flat_map_flat_map (subst1 AMP _) (subst1 SPACE _)).
  rewrite (flat_map_flat_map _ (subst1 LT _)).
  rewrite (flat_map_flat_map _ (subst1 GT _)).
  reflexivity.
Qed.

Ltac char_cases c :=
  destruct (N.eq_dec c AMP) as [->|?];
  [|destruct (N.eq_dec c SPACE) as [->|?];
    [|destruct (N.eq_dec c LT) as [->|?];
      [|destruct (N.eq_dec c GT) as [->|?];
        [|destruct (N.eq_dec c CR) as [->|?];
          [|destruct (N.eq_dec c LF) as [->|?];
            [|destruct (N.eq_dec c DQUOTE) as [->|?]]]]]]].

Ltac eqb_false :=
  repeat match goal with
    | H : ?c <> ?k |- context [char16_eqb ?c ?k] =>
        rewrite (char16_eqb_neq H)
    | H : ?c <> ?k |- context [char16_eqb ?k ?c] =>
        rewrite (char16_eqb_sym k c), (char16_eqb_neq H)
    end.

Ltac unit_cases c :=
  char_cases c;
  unfold escape_unit, escape4, escape_tail, subst1;
  unfold AMP, SPACE, LT, GT, CR, LF, DQUOTE in *;
  repeat (progress (eqb_false; cbn)).

Lemma escape_tail_app (x y : jsstring) :
  escape_tail (x ++ y) = escape_tail x ++ escape_tail y.
Proof. unfold escape_tail. now rewrite !flat_map_app. Qed.

Lemma escape_tail_escape4 (c : char16) :
  escape_tail (escape4 c) = escape_unit c.
Proof. unit_cases c; reflexivity. Qed.

Lemma escape4_no_CR (c : char16) :
  c <> CR -> Forall (fun x => x <> CR) (escape4 c).
Proof.
  intro H. unit_cases c; try contradiction;
    repeat constructor; try discriminate; assumption.
Qed.

Lemma escape4_head (d : char16) :
  d <> LF -> exists x xs, escape4 d = x :: xs /\ x <> LF.
Proof.
  intro H. unit_cases d; try contradiction;
    (do 2 eexists; split; [reflexivity|]); try discriminate; assumption.
Qed.

Lemma escape_scan_cons (c : char16) (t : jsstring) :
  c <> CR \/ starts_with [LF] t = false ->
  escape_scan (c :: t) = escape_unit c ++ escape_scan t.
Proof.
  intro H. destruct t as [|d t]; [simpl; now rewrite app_nil_r|].
  cbn [escape_scan].
  destruct (char16_eqb c CR && char16_eqb d LF) eqn:E; [|reflexivity].
  apply andb_true_iff in E. destruct E as [E1 E2].
  apply char16_eqb_eq in E1. apply char16_eqb_eq in E2. subst.
  destruct H as [H|H]; [contradiction | discriminate].
Qed.

Lemma escape_scan_CRLF (t : jsstring) :
  escape_scan (CR :: LF :: t) = BR ++ escape_scan t.
Proof. reflexivity. Qed.

Lemma Escape_scan_length (n : nat) (s : jsstring) :
  length s <= n ->
  escape_tail (replace_global [CR; LF] BR (flat_map escape4 s)) =
  escape_scan s.
Proof.
  revert s. induction n as [|n IH]; intros s Hn.
  - destruct s; [reflexivity | simpl in Hn; lia].
  - destruct s as [|c t]; [reflexivity|].
    simpl in Hn. cbn [flat_map].
    destruct (N.eq_dec c CR) as [->|Hc].
    + change (escape4 CR) with [CR].
      destruct t as [|d t'].
      * reflexivity.
      * destruct (N.eq_dec d LF) as [->|Hd].
        -- change (flat_map escape4 (LF :: t'))
             with ([LF] ++ flat_map escape4 t').
           change ([CR] ++ [LF] ++ flat_map escape4 t')
             with ([CR; LF] ++ flat_map escape4 t').
           rewrite replace_global_match by discriminate.
           rewrite escape_tail_app, IH by (simpl in Hn; lia).
           reflexivity.
        -- rewrite escape_scan_cons.
           2:{ right. simpl. now rewrite (char16_eqb_sym LF d), (char16_eqb_neq Hd). }
           change ([CR] ++ flat_map escape4 (d :: t'))
             with (CR :: flat_map escape4 (d :: t')).
           rewrite replace_global_miss.
           ++ change (CR :: ?x) with ([CR] ++ x).
              rewrite escape_tail_app, IH by (simpl in *; lia).
              reflexivity.
           ++ cbn [flat_map].
              destruct (escape4_head Hd) as (x & xs & -> & Hx).
              simpl. rewrite (char16_eqb_sym LF x), (char16_eqb_neq Hx).
              reflexivity.
    + rewrite replace_global_pass by (apply escape4_no_CR; exact Hc).
      rewrite escape_tail_app, escape_tail_escape4, IH by lia.
      rewrite escape_scan_cons by (left; exact Hc). reflexivity.
Qed.

(** [Escape] is the single pass [escape_scan]. *)
Lemma Escape_scan (s : jsstring) : Escape s = escape_scan s.
Proof.
  rewrite Escape_passes. apply Escape_scan_length with (n := length s). lia.
Qed.

(** ** Reverting [Escape] *)

Lemma escape_scan_units (s : jsstring) :
  occurs [CR; LF] s = false -> escape_scan s = flat_map escape_unit s.
Proof.
  induction s as [|c t IH]; [reflexivity|].
  cbn [occurs flat_map]. intro H.
  apply orb_false_iff in H. destruct H as [Hhead Htail].
  rewrite escape_scan_cons; [now rewrite IH|].
  cbn [starts_with] in Hhead. apply andb_false_iff in Hhead.
  destruct Hhead as [Hc|Ht].
  - left. intros ->. now rewrite char16_eqb_refl in Hc.
  - right. exact Ht.
Qed.

(** A replacement that maps the escape of every code unit, whatever
    follows it, maps the escape of a string. *)
Lemma replace_global_flat_map (pattern replacement : jsstring)
    (f g : char16 -> jsstring) (s : jsstring) :
  (forall c t,
     replace_global pattern replacement (f c ++ t) =
     g c ++ replace_global pattern replacement t) ->
  replace_global pattern replacement (flat_map f s) = flat_map g s.
Proof.
  intro H. induction s as [|c s IH]; [reflexivity|].
  cbn [flat_map]. now rewrite H, IH.
Qed.

Ltac revert_step c :=
  unfold replace_global, partly_escaped; char_cases c;
  unfold escape_unit, BR;
  unfold AMP, SPACE, LT, GT, CR, LF, DQUOTE in *;
  cbn; repeat (progress (eqb_false; cbn)); reflexivity.

Lemma revert_quot (c : char16) (t : jsstring) :
  replace_global (str "&quot;") [DQUOTE] (escape_unit c ++ t) =
  partly_escaped [AMP; SPACE; LT; GT; LF] c ++
  replace_global (str "&quot;") [DQUOTE] t.
Proof. revert_step c. Qed.

Lemma revert_br (c : char16) (t : jsstring) :
  replace_global BR [LF] (partly_escaped [AMP; SPACE; LT; GT; LF] c ++ t) =
  partly_escaped [AMP; SPACE; LT; GT] c ++ replace_global BR [LF] t.
Proof. revert_step c. Qed.

Lemma revert_br_crlf (c : char16) (t : jsstring) :
  replace_global BR [CR; LF] (partly_escaped [AMP; SPACE; LT; GT] c ++ t) =
  partly_escaped [AMP; SPACE; LT; GT] c ++ replace_global BR [CR; LF] t.
Proof. revert_step c. Qed.

Lemma revert_gt (c : char16) (t : jsstring) :
  replace_global (str "&gt;") [GT]
    (partly_escaped [AMP; SPACE; LT; GT] c ++ t) =
  partly_escaped [AMP; SPACE; LT] c ++ replace_global (str "&gt;") [GT] t.
Proof. revert_step c. Qed.

Lemma revert_lt (c : char16) (t : jsstring) :
  replace_global (str "&lt;") [LT] (partly_escaped [AMP; SPACE; LT] c ++ t) =
  partly_escaped [AMP; SPACE] c ++ replace_global (str "&lt;") [LT] t.
Proof. revert_step c. Qed.

Lemma revert_nbsp (c : char16) (t : jsstring) :
  replace_global (str "&nbsp;") [SPACE] (partly_escaped [AMP; SPACE] c ++ t) =
  partly_escaped [AMP] c ++ replace_global (str "&nbsp;") [SPACE] t.
Proof. revert_step c. Qed.

Lemma revert_amp (c : char16) (t : jsstring) :
  replace_global (str "&amp;") [AMP] (partly_escaped [AMP] c ++ t) =
  [c] ++ replace_global (str "&amp;") [AMP] t.
Proof. revert_step c. Qed.

Lemma flat_map_singleton (A : Type) (l : list A) :
  flat_map (fun a => [a]) l = l.
Proof. induction l as [|a l IH]; simpl; congruence. Qed.

(** The reverse substitution undoes the escape of every string without a
    CR+LF pair. *)
Lemma Unescape_Escape (s : jsstring) :
  occurs [CR; LF] s = false -> Unescape (Escape s) = s.
Proof.
  intro H. rewrite Escape_scan, escape_scan_units by exact H.
  unfold Unescape, escape_table. cbn [rev app fold_left].
  rewrite (replace_global_flat_map _ _ _ _ _ revert_quot).
  rewrite (replace_global_flat_map _ _ _ _ _ revert_br).
  rewrite (replace_global_flat_map _ _ _ _ _ revert_br_crlf).
  rewrite (replace_global_flat_map _ _ _ _ _ revert_gt).
  rewrite (replace_global_flat_map _ _ _ _ _ revert_lt).
  rewrite (replace_global_flat_map _ _ _ _ _ revert_nbsp).
  rewrite (replace_global_flat_map _ _ _ _ _ revert_amp).
  apply flat_map_singleton.
Qed.

(** ** The sort, for a comparison that subtracts keys *)

Section SortByKey.
Variable A : Type.
Variable key : A -> Z.
Variable compare : A -> A -> Z.
Hypothesis compare_key : forall a b, compare a b = (key a - key b)%Z.

Lemma sort_insert_perm (x : A) (l : list A) :
  Permutation (sort_insert compare x l) (x :: l).
Proof.
  induction l as [|y l IH]; simpl; [reflexivity|].
  destruct (compare x y <=? 0)%Z; [reflexivity|].
  rewrite IH. apply perm_swap.
Qed.

Lemma sort_perm (l : list A) : Permutation (sort compare l) l.
Proof.
  induction l as [|x l IH]; simpl; [constructor|].
  rewrite sort_insert_perm. now constructor.
Qed.

Lemma sort_insert_sorted (x : A) (l : list A) :
  StronglySorted (key_le key) l -> StronglySorted (key_le key) (sort_insert compare x l).
Proof.
  induction 1 as [|y l Hl IH Hy]; simpl.
  - repeat constructor.
  - rewrite compare_key. destruct (Z.leb_spec (key x - key y) 0) as [Hle|Hgt].
    + constructor; [now constructor|].
      constructor; [unfold key_le; lia|].
      revert Hy. apply Forall_impl. unfold key_le. intros; lia.
    + constructor; [exact IH|].
      rewrite (sort_insert_perm x l).
      constructor; [unfold key_le; lia | exact Hy].
Qed.

Lemma sort_sorted (l : list A) : StronglySorted (key_le key) (sort compare l).
Proof.
  induction l as [|x l IH]; simpl; [constructor|].
  now apply sort_insert_sorted.
Qed.

(** The sort is stable: the elements of one key stay in their order. *)
Lemma sort_insert_filter (k : Z) (x : A) (l : list A) :
  filter (fun a => (key a =? k)%Z) (sort_insert compare x l) =
  filter (fun a => (key a =? k)%Z) (x :: l).
Proof.
  induction l as [|y l IH]; [reflexivity|].
  cbn [sort_insert]. rewrite compare_key.
  destruct (Z.leb_spec (key x - key y) 0) as [Hle|Hgt]; [reflexivity|].
  cbn [filter] in *. rewrite IH.
  destruct (Z.eqb_spec (key x) k), (Z.eqb_spec (key y) k);
    try reflexivity.
  lia.
Qed.

Lemma sort_stable (k : Z) (l : list A) :
  filter (fun a => (key a =? k)%Z) (sort compare l) =
  filter (fun a => (key a =? k)%Z) l.
Proof.
  induction l as [|x l IH]; [reflexivity|].
  cbn [sort]. rewrite sort_insert_filter. cbn [filter]. now rewrite IH.
Qed.
End SortByKey.

Lemma StronglySorted_nth (A : Type) (R : A -> A -> Prop) (l : list A)
    (d : A) :
  StronglySorted R l ->
  forall i j, i < j < length l -> R (nth i l d) (nth j l d).
Proof.
  induction 1 as [|x l Hl IH Hx]; intros i j Hij; [simpl in Hij; lia|].
  simpl in Hij. destruct j as [|j]; [lia|].
  destruct i as [|i]; simpl.
  - rewrite Forall_forall in Hx. apply Hx. apply nth_In. lia.
  - apply IH. lia.
Qed.

(** ** [substring] *)

Lemma substring_clamp (s : jsstring) (a b : Z) :
  clamp s a <= clamp s b ->
  substring s a b = firstn (clamp s b - clamp s a) (skipn (clamp s a) s).
Proof.
  unfold substring, clamp. intro H. cbv zeta.
  set (from := Z.min (Z.max a 0) (Z.of_nat (length s))) in *.
  set (to := Z.min (Z.max b 0) (Z.of_nat (length s))) in *.
  assert (0 <= from <= to)%Z as Hle by lia.
  rewrite (Z.min_l from to), (Z.max_r from to) by lia. f_equal. lia.
Qed.

Lemma clamp_mono (s : jsstring) (a b : Z) :
  (a <= b)%Z -> clamp s a <= clamp s b.
Proof. unfold clamp. lia. Qed.

Lemma clamp_0 (s : jsstring) : clamp s 0 = 0.
Proof. unfold clamp. lia. Qed.

Lemma clamp_length (s : jsstring) : clamp s (Z.of_nat (length s)) = length s.
Proof. unfold clamp. lia. Qed.

Lemma clamp_le_length (s : jsstring) (z : Z) : clamp s z <= length s.
Proof. unfold clamp. lia. Qed.

Lemma substring_all (s : jsstring) :
  substring s 0 (Z.of_nat (length s)) = s.
Proof.
  rewrite substring_clamp; rewrite clamp_0, clamp_length; [|lia].
  rewrite Nat.sub_0_r. simpl. apply firstn_all.
Qed.

(** A piece followed by the rest of the source from its end is the rest of
    the source from its start. *)
Lemma substring_skipn (s : jsstring) (a b : Z) :
  clamp s a <= clamp s b ->
  substring s a b ++ skipn (clamp s b) s = skipn (clamp s a) s.
Proof.
  intro H. rewrite substring_clamp by exact H.
  replace (skipn (clamp s b) s)
    with (skipn (clamp s b - clamp s a) (skipn (clamp s a) s)).
  - apply firstn_skipn.
  - rewrite skipn_skipn. f_equal. lia.
Qed.

(** ** The walk of [MarkUpCode] *)

Lemma PrintType_marker (type : TypeObject) (st : MarkUp) :
  PrintType type st =
  {| result := result st ++ marker type; cursor := cursor st |}.
Proof.
  unfold PrintType, append, marker, SPAN_OPEN. cbn [result cursor].
  f_equal. now rewrite <- !app_assoc.
Qed.

Lemma PrintType_all (ts : list TypeObject) (st : MarkUp) :
  fold_left (fun st type => PrintType type st) ts st =
  {| result := result st ++ flat_map marker ts; cursor := cursor st |}.
Proof.
  revert st. induction ts as [|t ts IH]; intro st; cbn [fold_left flat_map].
  - rewrite app_nil_r. now destruct st.
  - rewrite IH, PrintType_marker. cbn [result cursor].
    now rewrite <- app_assoc.
Qed.

Lemma visit_result (source : jsstring) (st : MarkUp)
    (entry : TypeProfileEntry) :
  visit source st entry =
  {| result :=
       result st ++ Escape (substring source (cursor st) (offset entry)) ++
       markers entry;
     cursor := offset entry |}.
Proof.
  unfold visit. rewrite PrintType_all. unfold CopySourceUpTo, markers.
  cbn [result cursor]. now rewrite <- app_assoc.
Qed.

(** The text is the escaped pieces and the markers of the entries in turn. *)
Lemma walk_result (source : jsstring) (es : list TypeProfileEntry)
    (st : MarkUp) :
  result (CopySourceUpTo source (Z.of_nat (length source))
            (fold_left (visit source) es st)) =
  result st ++
  interleave (map Escape (copies source st es)) (map markers es).
Proof.
  revert st. induction es as [|e es IH]; intro st.
  - cbn. now rewrite app_nil_r.
  - cbn [fold_left copies map interleave]. rewrite IH.
    rewrite visit_result at 1. cbn [result]. now rewrite <- !app_assoc.
Qed.

Lemma MarkUpCode_interleave (profile : list ScriptTypeProfile)
    (source : jsstring) :
  MarkUpCode profile source =
  interleave (map Escape (copies source start (sorted_entries profile)))
             (map markers (sorted_entries profile)).
Proof. unfold MarkUpCode. cbv zeta. now rewrite walk_result. Qed.

Lemma visit_cursor (source : jsstring) (st : MarkUp)
    (entry : TypeProfileEntry) :
  cursor (visit source st entry) = offset entry.
Proof. now rewrite visit_result. Qed.

(** Over entries sorted by offset the pieces are consecutive: together they
    are the source from the cursor on. *)
Lemma copies_concat (source : jsstring) (es : list TypeProfileEntry)
    (st : MarkUp) :
  StronglySorted (key_le offset) es ->
  Forall (fun e => clamp source (cursor st) <= clamp source (offset e)) es ->
  concat (copies source st es) = skipn (clamp source (cursor st)) source.
Proof.
  intro Hs. revert st. induction Hs as [|e es Hs IH He]; intros st Hc.
  - cbn. rewrite app_nil_r, substring_clamp;
      rewrite clamp_length; [|apply clamp_le_length].
    apply firstn_all2. rewrite length_skipn. lia.
  - cbn [copies concat]. rewrite IH.
    + rewrite visit_cursor. apply substring_skipn.
      now inversion Hc.
    + rewrite visit_cursor. revert He. apply Forall_impl.
      intros e' H. apply clamp_mono. exact H.
Qed.

Lemma by_offset_key (a b : TypeProfileEntry) :
  by_offset a b = (offset a - offset b)%Z.
Proof. reflexivity. Qed.

Lemma sorted_entries_sorted (profile : list ScriptTypeProfile) :
  StronglySorted (key_le offset) (sorted_entries profile).
Proof. apply sort_sorted, by_offset_key. Qed.

Lemma sorted_entries_perm (profile : list ScriptTypeProfile) :
  Permutation (sorted_entries profile) (flatten profile).
Proof. apply sort_perm. Qed.

(** Every code unit of the source is in exactly one piece, in order. *)
Lemma copies_source (profile : list ScriptTypeProfile) (source : jsstring) :
  concat (copies source start (sorted_entries profile)) = source.
Proof.
  rewrite copies_concat.
  - cbn [start cursor]. now rewrite clamp_0.
  - apply sorted_entries_sorted.
  - apply Forall_forall. intros e _. cbn [start cursor].
    rewrite clamp_0. lia.
Qed.

Lemma copies_length (source : jsstring) (es : list TypeProfileEntry)
    (st : MarkUp) :
  length (copies source st es) = S (length es).
Proof.
  revert st. induction es as [|e es IH]; intro st; [reflexivity|].
  cbn [copies length]. now rewrite IH.
Qed.

Lemma cursors_Forall (P : Z -> Prop) (source : jsstring)
    (es : list TypeProfileEntry) (st : MarkUp) :
  P (cursor st) -> Forall (fun e => P (offset e)) es ->
  P (Z.of_nat (length source)) ->
  Forall P (cursors source st es).
Proof.
  intros Hc Hes Hlen. revert st Hc.
  induction Hes as [|e es He Hes IH]; intros st Hc; cbn [cursors].
  - repeat constructor; assumption.
  - constructor; [exact Hc|]. apply IH. now rewrite visit_cursor.
Qed.

(** Over sorted entries with offsets in the source the cursor never
    retreats. *)
Lemma cursors_sorted (source : jsstring) (es : list TypeProfileEntry)
    (st : MarkUp) :
  StronglySorted (key_le offset) es ->
  Forall (in_source source) es ->
  Forall (fun e => (cursor st <= offset e)%Z) es ->
  (cursor st <= Z.of_nat (length source))%Z ->
  StronglySorted Z.le (cursors source st es).
Proof.
  intro Hs. revert st.
  induction Hs as [|e es Hs IH He]; intros st Hin Hc Hlen; cbn [cursors].
  - repeat constructor. exact Hlen.
  - inversion Hin as [|? ? Hin_e Hin_es]; subst.
    inversion Hc as [|? ? Hc_e Hc_es]; subst.
    constructor.
    + apply IH; rewrite ?visit_cursor; try assumption.
      apply Hin_e.
    + apply cursors_Forall.
      * now rewrite visit_cursor.
      * exact Hc_es.
      * exact Hlen.
Qed.

(** ** Lengths *)

Lemma interleave_length (texts marks : list jsstring) :
  length marks <= length texts ->
  length (interleave texts marks) =
  length (concat texts) + length (concat marks).
Proof.
  revert marks. induction texts as [|t texts IH]; intros marks H.
  - destruct marks; [reflexivity | simpl in H; lia].
  - destruct marks as [|m marks]; cbn [interleave concat].
    + rewrite length_app, IH by (simpl; lia). rewrite length_app.
      simpl. lia.
    + rewrite !length_app, IH by (simpl in H; lia). lia.
Qed.

Lemma escape_scan_length_app (n : nat) (a b : jsstring) :
  length a <= n ->
  length (escape_scan (a ++ b)) <=
  length (escape_scan a) + length (escape_scan b).
Proof.
  revert a. induction n as [|n IH]; intros a Hn.
  - destruct a; [simpl; lia | simpl in Hn; lia].
  - destruct a as [|c a]; [simpl; lia|].
    simpl in Hn.
    destruct (N.eq_dec c CR) as [->|Hc].
    + destruct a as [|d a].
      * cbn [app]. destruct b as [|e b]; [simpl; lia|].
        destruct (N.eq_dec e LF) as [->|He].
        -- rewrite escape_scan_CRLF.
           rewrite (escape_scan_cons (c:=LF)) by (left; discriminate).
           rewrite !length_app. simpl. lia.
        -- rewrite escape_scan_cons.
           ++ rewrite length_app. simpl. lia.
           ++ right. simpl.
              now rewrite (char16_eqb_sym LF e), (char16_eqb_neq He).
      * destruct (N.eq_dec d LF) as [->|Hd].
        -- change ((CR :: LF :: a) ++ b) with (CR :: LF :: (a ++ b)).
           rewrite !escape_scan_CRLF, !length_app.
           specialize (IH a). simpl in Hn. lia.
        -- change ((CR :: d :: a) ++ b) with (CR :: d :: (a ++ b)).
           assert (starts_with [LF] (d :: a ++ b) = false) as H1
             by (simpl; now rewrite (char16_eqb_sym LF d), (char16_eqb_neq Hd)).
           assert (starts_with [LF] (d :: a) = false) as H2
             by (simpl; now rewrite (char16_eqb_sym LF d), (char16_eqb_neq Hd)).
           rewrite (@escape_scan_cons CR (d :: a ++ b)) by now right.
           rewrite (@escape_scan_cons CR (d :: a)) by now right.
           rewrite !length_app.
           specialize (IH (d :: a)). cbn [app length] in IH.
           simpl in Hn. lia.
    + change ((c :: a) ++ b) with (c :: (a ++ b)).
      rewrite (@escape_scan_cons c (a ++ b)) by now left.
      rewrite (@escape_scan_cons c (a)) by now left.
      rewrite !length_app. specialize (IH a). lia.
Qed.

(** Escaping a string in two pieces never gives less than escaping it
    whole. *)
Lemma Escape_length_app (a b : jsstring) :
  length (Escape (a ++ b)) <= length (Escape a) + length (Escape b).
Proof.
  rewrite !Escape_scan. apply escape_scan_length_app with (n := length a).
  lia.
Qed.

Lemma Escape_length_concat (l : list jsstring) :
  length (Escape (concat l)) <= length (concat (map Escape l)).
Proof.
  induction l as [|a l IH]; cbn [concat map]; [rewrite Escape_scan; simpl; lia|].
  rewrite length_app. pose proof (Escape_length_app a (concat l)). lia.
Qed.

Lemma marker_length (type : TypeObject) : 0 < length (marker type).
Proof. unfold marker. rewrite !length_app. simpl. lia. Qed.

Lemma markers_length (es : list TypeProfileEntry) :
  Exists (fun e => types e <> []) es ->
  0 < length (concat (map markers es)).
Proof.
  induction 1 as [e es He|e es _ IH]; cbn [map concat]; rewrite length_app.
  - unfold markers. destruct (types e) as [|t ts]; [contradiction|].
    cbn [flat_map]. rewrite length_app. pose proof (marker_length t). lia.
  - lia.
Qed.

(** ** The session driver: [disconnect] *)

Lemma disconnects_app (t u : list Event) :
  disconnects (t ++ u) = disconnects t + disconnects u.
Proof. unfold disconnects. now rewrite filter_app, length_app. Qed.

Section Connected.
Variable R : Remote.

Lemma connected_ret (A : Type) (a : A) : connected (ret (R:=R) a).
Proof. intro w. reflexivity. Qed.

Lemma connected_throw (A : Type) (e : Reason) :
  connected (throw (R:=R) (A:=A) e).
Proof. intro w. reflexivity. Qed.

Lemma connected_bind (A B : Type) (m : M R A) (k : A -> M R B) :
  connected m -> (forall a, connected (k a)) -> connected (bind m k).
Proof.
  intros Hm Hk w. unfold bind. specialize (Hm w).
  destruct (m w) as [[e|a] w']; cbn [snd] in *; [exact Hm|].
  now rewrite Hk.
Qed.

Lemma connected_connect : connected (connect (R:=R)).
Proof.
  intro w. unfold connect.
  destruct (remote_connect R (remote w)) as [[e|] r];
    cbn [snd trace]; rewrite disconnects_app; cbn; lia.
Qed.

Lemma connected_postAsync (c : Command) : connected (postAsync (R:=R) c).
Proof.
  intro w. unfold postAsync.
  destruct (remote_post R (remote w) c) as [reply r].
  cbn [snd trace]. rewrite disconnects_app. cbn. lia.
Qed.

Lemma connected_on : connected (on_consoleAPICalled (R:=R)).
Proof.
  intro w. unfold on_consoleAPICalled. cbn [snd trace].
  rewrite disconnects_app. cbn. lia.
Qed.

Lemma connected_set_profile (p : list ScriptTypeProfile) :
  connected (set_profile (R:=R) p).
Proof. intro w. reflexivity. Qed.

Lemma connected_defined (A : Type) (v : option A) :
  connected (defined (R:=R) v).
Proof. destruct v; intro w; reflexivity. Qed.

Lemma connected_get : connected (get (R:=R)).
Proof. intro w. reflexivity. Qed.
End Connected.

Create HintDb driver.
#[local] Hint Resolve connected_ret connected_throw connected_bind
  connected_connect connected_postAsync connected_on connected_set_profile
  connected_defined connected_get : driver.

Lemma try_finally_disconnect (R : Remote) (A : Type) (body : M R A)
    (w : World R) :
  try_finally body disconnect w =
  (fst (body w), log EvDisconnect (snd (body w))).
Proof. unfold try_finally, disconnect. now destruct (body w). Qed.

(** One call of [CollectProfile], in terms of its [try] block. *)
Lemma run_CollectProfile_protocol (R : Remote) (r : RemoteState R)
    (source : jsstring) :
  run_CollectProfile R r source =
  (match fst (protocol R source (new_session R r)) with
   | inl e => inl e
   | inr _ =>
       inr (profile (snd (protocol R source (new_session R r))),
            messages (snd (protocol R source (new_session R r))))
   end,
   log EvDisconnect (snd (protocol R source (new_session R r)))).
Proof.
  unfold run_CollectProfile, CollectProfile. unfold bind at 1.
  rewrite try_finally_disconnect.
  now destruct (protocol R source (new_session R r)) as [[e|[]] w'].
Qed.

Ltac compositional lemma_bind :=
  unfold protocol;
  repeat first [ apply lemma_bind | solve [auto 1 with driver] | intro ].

Lemma connected_protocol (R : Remote) (source : jsstring) :
  connected (protocol R source).
Proof. compositional connected_bind. Qed.

(** C1: whatever the remote side answers, one call of [CollectProfile]
    calls [disconnect] exactly once, as the last call on the session. *)
Theorem CollectProfile_disconnects_once (R : Remote) (r : RemoteState R)
    (source : jsstring) :
  disconnects (trace (snd (run_CollectProfile R r source))) = 1 /\
  exists before,
    trace (snd (run_CollectProfile R r source)) = before ++ [EvDisconnect] /\
    disconnects before = 0.
Proof.
  rewrite run_CollectProfile_protocol. cbn [snd log trace].
  pose proof (connected_protocol source (new_session R r)) as H.
  cbn [new_session trace] in H.
  split.
  - rewrite disconnects_app, H. reflexivity.
  - eexists. split; [reflexivity | exact H].
Qed.

(** ** The session driver: rejections *)

Lemma clean_nil : clean [].
Proof. intros c reply reason []. Qed.

Lemma clean_aborted (reason : Reason) (t : list Event) :
  clean t -> aborted reason t.
Proof. intros H c reply reason' Hin Hrej. now destruct (H _ _ _ Hin Hrej). Qed.

Lemma clean_app_other (t : list Event) (e : Event) :
  clean t -> (forall c reply, e <> EvPost c reply) -> clean (t ++ [e]).
Proof.
  intros H He c reply reason Hin. apply in_app_or in Hin.
  destruct Hin as [Hin|[Heq|[]]]; [exact (H _ _ _ Hin)|].
  now destruct (He _ _ Heq).
Qed.

Lemma clean_app_post (t : list Event) (c : Command) (reply : Reply)
    (res : CommandResult) :
  clean t -> callback (error reply) (reply_result reply) = inr res ->
  clean (t ++ [EvPost c reply]).
Proof.
  intros H Hok c' reply' reason Hin Hrej. apply in_app_or in Hin.
  destruct Hin as [Hin|[Heq|[]]]; [exact (H _ _ _ Hin Hrej)|].
  inversion Heq; subst. unfold rejects in Hrej. congruence.
Qed.

Lemma aborted_app_post (t : list Event) (c : Command) (reply : Reply)
    (reason : Reason) :
  clean t -> rejects reply reason -> aborted reason (t ++ [EvPost c reply]).
Proof.
  intros H Hrej c' reply' reason' Hin Hrej'. apply in_app_or in Hin.
  destruct Hin as [Hin|[Heq|[]]]; [now destruct (H _ _ _ Hin Hrej')|].
  inversion Heq; subst. unfold rejects in *.
  split; [congruence | now exists t].
Qed.

Section Aborting.
Variable R : Remote.

Lemma aborting_ret (A : Type) (a : A) : aborting (ret (R:=R) a).
Proof. intros w H. exact H. Qed.

Lemma aborting_throw (A : Type) (e : Reason) :
  aborting (throw (R:=R) (A:=A) e).
Proof. intros w H. now apply clean_aborted. Qed.

Lemma aborting_bind (A B : Type) (m : M R A) (k : A -> M R B) :
  aborting m -> (forall a, aborting (k a)) -> aborting (bind m k).
Proof.
  intros Hm Hk w Hw. unfold bind. specialize (Hm w Hw).
  destruct (m w) as [[e|a] w']; [exact Hm|].
  now apply Hk.
Qed.

Lemma aborting_connect : aborting (connect (R:=R)).
Proof.
  intros w Hw. unfold connect.
  destruct (remote_connect R (remote w)) as [[e|] r]; cbn [trace].
  - apply clean_aborted, clean_app_other; [exact Hw | discriminate].
  - apply clean_app_other; [exact Hw | discriminate].
Qed.

Lemma aborting_postAsync (c : Command) : aborting (postAsync (R:=R) c).
Proof.
  intros w Hw. unfold postAsync.
  destruct (remote_post R (remote w) c) as [reply r].
  destruct (callback (error reply) (reply_result reply)) as [reason|res] eqn:E;
    cbn [trace].
  - now apply aborted_app_post.
  - now apply clean_app_post with (res := res).
Qed.

Lemma aborting_on : aborting (on_consoleAPICalled (R:=R)).
Proof.
  intros w Hw. unfold on_consoleAPICalled. cbn [trace].
  apply clean_app_other; [exact Hw | discriminate].
Qed.

Lemma aborting_set_profile (p : list ScriptTypeProfile) :
  aborting (set_profile (R:=R) p).
Proof. intros w Hw. exact Hw. Qed.

Lemma aborting_defined (A : Type) (v : option A) :
  aborting (defined (R:=R) v).
Proof. destruct v; [apply aborting_ret | apply aborting_throw]. Qed.
End Aborting.

#[local] Hint Resolve aborting_ret aborting_throw aborting_connect
  aborting_postAsync aborting_on aborting_set_profile aborting_defined
  : driver.

Lemma aborting_protocol (R : Remote) (source : jsstring) :
  aborting (protocol R source).
Proof. compositional aborting_bind. Qed.

(** ** The session driver: the run in which every command succeeds *)

Lemma callback_inr (e : option jsstring) (res c : CommandResult) :
  callback e res = inr c -> c = res.
Proof.
  unfold callback. destruct e; [discriminate|].
  destruct (res_exceptionDetails res); [discriminate|]. congruence.
Qed.

Ltac run_step H :=
  match type of H with
  | context [remote_connect ?R ?s] =>
      destruct (remote_connect R s) as [[?|] ?] eqn:?
  | context [remote_post ?R ?s ?c] =>
      let reply := fresh "reply" in
      destruct (remote_post R s c) as [reply ?] eqn:?;
      cbn [fst snd remote trace listening messages profile] in H;
      destruct (callback (error reply) (reply_result reply)) eqn:?
  | context [match res_result ?x with _ => _ end] =>
      destruct (res_result x) eqn:?
  end;
  cbn [fst snd remote trace listening messages profile] in H;
  try discriminate H.

Lemma protocol_resolved (R : Remote) (r : RemoteState R) (source : jsstring)
    (w : World R) :
  protocol R source (new_session R r) = (inr tt, w) ->
  exists r1 r2 r3 compiled r5 r6 taken raw r8 r9 r10,
    trace w =
      [ EvConnect;
        EvPost Runtime_enable r1;
        EvPost Profiler_enable r2;
        EvPost Profiler_startTypeProfile r3;
        EvPost (Runtime_compileScript source (str "test") true) compiled;
        EvOn;
        EvPost (Runtime_runScript (res_scriptId (reply_result compiled))) r5;
        EvPost HeapProfiler_collectGarbage r6;
        EvPost Profiler_takeTypeProfile taken;
        EvPost Profiler_stopTypeProfile r8;
        EvPost Profiler_disable r9;
        EvPost Runtime_disable r10 ] /\
    res_result (reply_result taken) = Some raw /\
    profile w =
      Some (filter
              (fun x => loose_eq (scriptId x)
                          (res_scriptId (reply_result compiled))) raw) /\
    messages w =
      notifications r5 ++ notifications r6 ++ notifications taken ++
      notifications r8 ++ notifications r9 ++ notifications r10.
Proof.
  unfold protocol, bind, connect, postAsync, on_consoleAPICalled,
    set_profile, defined, ret, throw, new_session.
  cbn [remote trace listening messages profile].
  intro H.
  do 12 run_step H.
  repeat match goal with
    | E : callback _ _ = inr _ |- _ => apply callback_inr in E; subst
    end.
  inversion H; subst; clear H. cbn [trace profile messages].
  do 11 eexists. repeat split; try eassumption.
  cbn [app]. now rewrite <- !app_assoc.
Qed.

Lemma loose_eq_true (a : jsstring) (b : option jsstring) :
  loose_eq a b = true <-> b = Some a.
Proof.
  destruct b as [b|]; simpl; [|split; discriminate].
  rewrite jsstring_eqb_eq. split; [now intros -> | congruence].
Qed.

Lemma callback_error (e : jsstring) (res : CommandResult) :
  callback (Some e) res = inl (RemoteError e).
Proof. reflexivity. Qed.

Lemma callback_exception (res : CommandResult) (details : ExceptionDetails) :
  res_exceptionDetails res = Some details ->
  callback None res = inl (ExceptionDescription (description details)).
Proof. intro H. unfold callback. now rewrite H. Qed.

(** A reply with an error or with exception details is rejected by the
    callback, and with what. *)
Lemma rejects_reply (reply : Reply) :
  error reply <> None \/ res_exceptionDetails (reply_result reply) <> None ->
  exists reason,
    rejects reply reason /\
    (forall e, error reply = Some e -> reason = RemoteError e) /\
    (forall details,
       error reply = None ->
       res_exceptionDetails (reply_result reply) = Some details ->
       reason = ExceptionDescription (description details)).
Proof.
  intro H. unfold rejects.
  destruct (error reply) as [e|] eqn:He.
  - exists (RemoteError e). split; [apply callback_error|].
    split; [intros e' He'; congruence | discriminate].
  - destruct (res_exceptionDetails (reply_result reply)) as [details|] eqn:Hd.
    + exists (ExceptionDescription (description details)).
      split; [now apply callback_exception|].
      split; [discriminate | intros details' _ Hd'; congruence].
    + destruct H as [H|H]; contradiction.
Qed.

(** A rejected command ends the call: the call is rejected with the same
    reason, and only [disconnect] follows the command. *)
Lemma run_rejected (R : Remote) (r : RemoteState R) (source : jsstring)
    (c : Command) (reply : Reply) (reason : Reason) :
  In (EvPost c reply) (trace (snd (run_CollectProfile R r source))) ->
  rejects reply reason ->
  fst (run_CollectProfile R r source) = inl reason /\
  exists before,
    trace (snd (run_CollectProfile R r source)) =
    before ++ [EvPost c reply; EvDisconnect].
Proof.
  rewrite run_CollectProfile_protocol. cbn [fst snd log trace].
  intros Hin Hrej.
  pose proof (aborting_protocol source (new_session R r) clean_nil) as H.
  apply in_app_or in Hin. destruct Hin as [Hin|[Heq|[]]];
    [|discriminate Heq].
  destruct (protocol R source (new_session R r)) as [[e|[]] w'];
    cbn [fst snd] in *.
  - destruct (H _ _ _ Hin Hrej) as [-> [before ->]].
    split; [reflexivity|]. exists before. now rewrite <- app_assoc.
  - destruct (H _ _ _ Hin Hrej).
Qed.

Lemma run_resolved (R : Remote) (r : RemoteState R) (source : jsstring)
    (p : option (list ScriptTypeProfile)) (msgs : list Message) :
  fst (run_CollectProfile R r source) = inr (p, msgs) ->
  exists kept, p = Some kept.
Proof.
  rewrite run_CollectProfile_protocol. cbn [fst]. intro H.
  destruct (protocol R source (new_session R r)) as [[e|[]] w'] eqn:E;
    cbn [fst snd] in H; [discriminate|].
  apply protocol_resolved in E.
  destruct E as (? & ? & ? & ? & ? & ? & ? & raw & ? & ? & ? & _ & _ & Hp & _).
  inversion H; subst. rewrite Hp. eauto.
Qed.

(** C2: when a command posted by [CollectProfile] is answered with an
    error, or with a result that carries exception details, the call is
    rejected: with the error when there is one, else with the description
    of the exception.  The command is the last one posted, only
    [disconnect] follows it, and no pair is returned; a pair that is
    returned always holds a harvested profile. *)
Theorem CollectProfile_rejection (R : Remote) (r : RemoteState R)
    (source : jsstring) (c : Command) (reply : Reply) :
  In (EvPost c reply) (trace (snd (run_CollectProfile R r source))) ->
  error reply <> None \/ res_exceptionDetails (reply_result reply) <> None ->
  (forall e,
     error reply = Some e ->
     fst (run_CollectProfile R r source) = inl (RemoteError e)) /\
  (forall details,
     error reply = None ->
     res_exceptionDetails (reply_result reply) = Some details ->
     fst (run_CollectProfile R r source) =
       inl (ExceptionDescription (description details))) /\
  (exists before,
     trace (snd (run_CollectProfile R r source)) =
     before ++ [EvPost c reply; EvDisconnect]) /\
  (forall p msgs, fst (run_CollectProfile R r source) <> inr (p, msgs)) /\
  (forall R' (r' : RemoteState R') source' p msgs,
     fst (run_CollectProfile R' r' source') = inr (p, msgs) ->
     exists kept, p = Some kept).
Proof.
  intros Hin Hbad.
  destruct (@rejects_reply reply Hbad) as (reason & Hrej & Herr & Hexc).
  destruct (@run_rejected R r source c reply reason Hin Hrej)
    as [Hout Htrace].
  split; [|split; [|split; [|split]]].
  - intros e He. rewrite Hout. f_equal. now apply Herr.
  - intros details He Hd. rewrite Hout. f_equal. now apply Hexc.
  - exact Htrace.
  - intros p msgs H. rewrite Hout in H. discriminate.
  - intros R' r' source' p msgs. apply run_resolved.
Qed.

Lemma CollectProfile_rejection_witness :
  let run := Runtime_runScript (Some (str "42")) in
  let compile :=
    Runtime_compileScript (str "let x = ;") (str "test") true in
  (In (EvPost run (answer_throw run))
      (trace (snd (run_CollectProfile (scripted answer_throw) tt
                     (str "throw new Error('boom')")))) /\
   (error (answer_throw run) <> None \/
    res_exceptionDetails (reply_result (answer_throw run)) <> None) /\
   fst (run_CollectProfile (scripted answer_throw) tt
          (str "throw new Error('boom')")) =
     inl (ExceptionDescription (Some (str "Error: boom")))) /\
  (In (EvPost compile (answer_error compile))
      (trace (snd (run_CollectProfile (scripted answer_error) tt
                     (str "let x = ;")))) /\
   (error (answer_error compile) <> None \/
    res_exceptionDetails (reply_result (answer_error compile)) <> None) /\
   fst (run_CollectProfile (scripted answer_error) tt (str "let x = ;")) =
     inl (RemoteError (str "Invalid parameters"))).
Proof.
  cbv zeta. split.
  - assert (In (EvPost (Runtime_runScript (Some (str "42")))
                  (answer_throw (Runtime_runScript (Some (str "42")))))
               (trace (snd (run_CollectProfile (scripted answer_throw) tt
                              (str "throw new Error('boom')"))))) as Hin
      by (vm_compute; tauto).
    assert (error (answer_throw (Runtime_runScript (Some (str "42")))) <>
              None \/
            res_exceptionDetails
              (reply_result
                 (answer_throw (Runtime_runScript (Some (str "42"))))) <>
              None) as Hbad
      by (right; discriminate).
    split; [exact Hin | split; [exact Hbad|]].
    exact (proj1 (proj2 (@CollectProfile_rejection _ _ _ _ _ Hin Hbad))
             {| description := Some (str "Error: boom") |}
             eq_refl eq_refl).
  - assert (In (EvPost
                  (Runtime_compileScript (str "let x = ;") (str "test") true)
                  (answer_error
                     (Runtime_compileScript (str "let x = ;") (str "test")
                        true)))
               (trace (snd (run_CollectProfile (scripted answer_error) tt
                              (str "let x = ;"))))) as Hin
      by (vm_compute; tauto).
    assert (error
              (answer_error
                 (Runtime_compileScript (str "let x = ;") (str "test")
                    true)) <> None \/
            res_exceptionDetails
              (reply_result
                 (answer_error
                    (Runtime_compileScript (str "let x = ;") (str "test")
                       true))) <> None) as Hbad
      by (left; discriminate).
    split; [exact Hin | split; [exact Hbad|]].
    exact (proj1 (@CollectProfile_rejection _ _ _ _ _ Hin Hbad)
             (str "Invalid parameters") eq_refl).
Defined.

(** C3: in a call that returns, the profile returned is the harvested
    result of [Profiler.takeTypeProfile] filtered to the script identifier
    that [Runtime.compileScript] answered: an entry of the harvest is kept
    exactly when its script identifier is that one. *)
Theorem CollectProfile_keeps_own_script (R : Remote) (r : RemoteState R)
    (source : jsstring) (p : option (list ScriptTypeProfile))
    (msgs : list Message) :
  fst (run_CollectProfile R r source) = inr (p, msgs) ->
  exists r1 r2 r3 compiled r5 r6 taken raw r8 r9 r10 kept,
    trace (snd (run_CollectProfile R r source)) =
      [ EvConnect;
        EvPost Runtime_enable r1;
        EvPost Profiler_enable r2;
        EvPost Profiler_startTypeProfile r3;
        EvPost (Runtime_compileScript source (str "test") true) compiled;
        EvOn;
        EvPost (Runtime_runScript (res_scriptId (reply_result compiled))) r5;
        EvPost HeapProfiler_collectGarbage r6;
        EvPost Profiler_takeTypeProfile taken;
        EvPost Profiler_stopTypeProfile r8;
        EvPost Profiler_disable r9;
        EvPost Runtime_disable r10;
        EvDisconnect ] /\
    res_result (reply_result taken) = Some raw /\
    p = Some kept /\
    kept =
      filter (fun x => loose_eq (scriptId x)
                         (res_scriptId (reply_result compiled))) raw /\
    forall x,
      In x kept <->
      In x raw /\ res_scriptId (reply_result compiled) = Some (scriptId x).
Proof.
  intro H. rewrite run_CollectProfile_protocol in *. cbn [fst snd] in *.
  destruct (protocol R source (new_session R r)) as [[e|[]] w'] eqn:E;
    cbn [fst snd] in *; [discriminate|].
  apply protocol_resolved in E.
  destruct E as (r1 & r2 & r3 & compiled & r5 & r6 & taken & raw & r8 & r9
                 & r10 & Ht & Hraw & Hp & _).
  exists r1, r2, r3, compiled, r5, r6, taken, raw, r8, r9, r10.
  eexists. split; [cbn [log trace]; rewrite Ht; reflexivity|].
  split; [exact Hraw|]. split; [inversion H; subst; exact Hp|].
  split; [reflexivity|].
  intro x. rewrite filter_In, loose_eq_true. reflexivity.
Qed.

Lemma CollectProfile_keeps_own_script_witness :
  fst (run_CollectProfile (scripted answer_ok) tt (str "let x = 1;")) =
    inr (Some kept_profiles, logged) /\
  exists r1 r2 r3 compiled r5 r6 taken raw r8 r9 r10 kept,
    trace (snd (run_CollectProfile (scripted answer_ok) tt
                  (str "let x = 1;"))) =
      [ EvConnect;
        EvPost Runtime_enable r1;
        EvPost Profiler_enable r2;
        EvPost Profiler_startTypeProfile r3;
        EvPost (Runtime_compileScript (str "let x = 1;") (str "test") true)
          compiled;
        EvOn;
        EvPost (Runtime_runScript (res_scriptId (reply_result compiled))) r5;
        EvPost HeapProfiler_collectGarbage r6;
        EvPost Profiler_takeTypeProfile taken;
        EvPost Profiler_stopTypeProfile r8;
        EvPost Profiler_disable r9;
        EvPost Runtime_disable r10;
        EvDisconnect ] /\
    res_result (reply_result taken) = Some raw /\
    Some kept_profiles = Some kept /\
    kept =
      filter (fun x => loose_eq (scriptId x)
                         (res_scriptId (reply_result compiled))) raw /\
    forall x,
      In x kept <->
      In x raw /\ res_scriptId (reply_result compiled) = Some (scriptId x).
Proof.
  split; [reflexivity|].
  apply (@CollectProfile_keeps_own_script (scripted answer_ok) tt
           (str "let x = 1;") (Some kept_profiles) logged).
  reflexivity.
Defined.

(** ** Properties of [Escape] *)

Lemma starts_with_CRLF (c : char16) (y : jsstring) :
  starts_with [CR; LF] (c :: y) = char16_eqb CR c && starts_with [LF] y.
Proof. reflexivity. Qed.

(** After the replacement of CR+LF no such pair is left, and the result
    starts with LF only where the string did. *)
Lemma replace_CRLF_complete (n : nat) (x : jsstring) :
  length x <= n ->
  occurs [CR; LF] (replace_global [CR; LF] BR x) = false /\
  (starts_with [LF] (replace_global [CR; LF] BR x) = true ->
   starts_with [LF] x = true).
Proof.
  revert x. induction n as [|n IH]; intros x Hn.
  - destruct x; [split; [reflexivity | discriminate] | simpl in Hn; lia].
  - destruct x as [|c t]; [split; [reflexivity | discriminate]|].
    simpl in Hn.
    destruct (starts_with [CR; LF] (c :: t)) eqn:E.
    + cbn [starts_with] in E. apply andb_true_iff in E.
      destruct E as [Ec Et]. apply char16_eqb_eq in Ec. subst c.
      destruct t as [|d t]; [discriminate|].
      cbn [starts_with] in Et. apply andb_true_iff in Et.
      destruct Et as [Ed _]. apply char16_eqb_eq in Ed. subst d.
      change (CR :: LF :: t) with ([CR; LF] ++ t).
      rewrite replace_global_match by discriminate.
      destruct (IH t) as [IH1 _]; [simpl in Hn; lia|].
      split; [|discriminate].
      cbn. exact IH1.
    + rewrite replace_global_miss by exact E.
      destruct (IH t) as [IH1 IH2]; [lia|].
      split.
      * cbn [occurs]. rewrite IH1, orb_false_r.
        rewrite starts_with_CRLF in *.
        destruct (char16_eqb CR c); [|reflexivity].
        destruct (starts_with [LF] (replace_global [CR; LF] BR t)) eqn:F;
          [|reflexivity].
        rewrite IH2 in E by reflexivity. discriminate.
      * cbn [starts_with]. rewrite !andb_true_r. auto.
Qed.

(** C4: [Escape] is the seven global replacements in the order of its
    table, [&] first; a replacement of one code unit replaces every
    occurrence of it, the replacement of CR+LF leaves no such pair, and what
    a replacement writes is not escaped again: the result is a single pass
    over the string. *)
Theorem Escape_substitution_order (s : jsstring) :
  Escape s =
    replace_global [DQUOTE] (str "&quot;")
      (replace_global [LF] (str "<br/>")
         (replace_global [CR; LF] (str "<br/>")
            (replace_global [GT] (str "&gt;")
               (replace_global [LT] (str "&lt;")
                  (replace_global [SPACE] (str "&nbsp;")
                     (replace_global [AMP] (str "&amp;") s)))))) /\
  (forall p replacement x,
     replace_global [p] replacement x =
     flat_map (fun c => if char16_eqb p c then replacement else [c]) x) /\
  (forall x,
     occurs [CR; LF] (replace_global [CR; LF] (str "<br/>") x) = false) /\
  Escape s = escape_scan s.
Proof.
  split; [reflexivity|]. split; [|split].
  - intros p replacement x. apply replace_global_single.
  - intro x. apply (replace_CRLF_complete (n := length x)). lia.
  - apply Escape_scan.
Qed.

(** C5, as the specification states it, fails: CR+LF and a bare LF are
    safe inputs with the same escape, and the reverse substitution gives
    the LF back for both. *)
Lemma Escape_CRLF_collision :
  safe_input [CR; LF] = true /\ safe_input [LF] = true /\
  Escape [CR; LF] = Escape [LF] /\ [CR; LF] <> [LF] /\
  Unescape (Escape [CR; LF]) = [LF].
Proof. repeat split; try reflexivity. discriminate. Qed.

(** C5, amended: on safe inputs without a CR+LF pair the reverse
    substitution recovers the string from its escape, and [Escape] is
    injective. *)
Theorem Escape_injective_without_CRLF (s : jsstring) :
  safe_input s = true -> occurs [CR; LF] s = false ->
  Unescape (Escape s) = s /\
  forall t,
    safe_input t = true -> occurs [CR; LF] t = false ->
    Escape t = Escape s -> t = s.
Proof.
  intros _ Hs. split; [now apply Unescape_Escape|].
  intros t _ Ht E.
  rewrite <- (Unescape_Escape t Ht), <- (Unescape_Escape s Hs).
  now rewrite E.
Qed.

Lemma Escape_injective_without_CRLF_witness :
  let s := str "if (a < b) " ++ [LF; DQUOTE] ++ str "&c > d" in
  safe_input s = true /\ occurs [CR; LF] s = false /\
  Unescape (Escape s) = s.
Proof.
  cbv zeta. split; [reflexivity|]. split; [reflexivity|].
  apply (@Escape_injective_without_CRLF
           (str "if (a < b) " ++ [LF; DQUOTE] ++ str "&c > d"));
    reflexivity.
Defined.

(** ** Properties of [MarkUpCode] *)

Lemma sorted_entries_nil (profile : list ScriptTypeProfile) :
  flatten profile = [] -> sorted_entries profile = [].
Proof. unfold sorted_entries. now intros ->. Qed.

Lemma substring_empty (s : jsstring) (a : Z) : substring s a a = [].
Proof. rewrite substring_clamp by lia. now rewrite Nat.sub_diag. Qed.

Lemma Escape_nil : Escape [] = [].
Proof. reflexivity. Qed.

(** C6, as the specification states it, fails: a sample without types adds
    nothing, so the lengths are equal although the sample sequence is not
    empty. *)
Lemma MarkUpCode_same_length_with_sample :
  let profile :=
    [ {| scriptId := str "42"; url := str "test";
         entries := [ {| offset := 1; types := [] |} ] |} ] in
  flatten profile <> [] /\
  length (MarkUpCode profile (str "x;")) = length (Escape (str "x;")).
Proof. cbv zeta. split; [discriminate | reflexivity]. Qed.

(** C6, amended: the annotated text is never shorter than the escaped
    source; the lengths are equal when the sample sequence is empty, and the
    annotated text is longer as soon as one sample has a type. *)
Theorem MarkUpCode_length (profile : list ScriptTypeProfile)
    (source : jsstring) :
  length (Escape source) <= length (MarkUpCode profile source) /\
  (flatten profile = [] ->
   length (MarkUpCode profile source) = length (Escape source)) /\
  (Exists (fun e => types e <> []) (flatten profile) ->
   length (Escape source) < length (MarkUpCode profile source)) /\
  (Forall (fun e => types e <> []) (flatten profile) ->
   (length (MarkUpCode profile source) = length (Escape source) <->
    flatten profile = [])).
Proof.
  assert (length (MarkUpCode profile source) =
          length (concat (map Escape
                            (copies source start (sorted_entries profile)))) +
          length (concat (map markers (sorted_entries profile)))) as Hlen.
  { rewrite MarkUpCode_interleave. apply interleave_length.
    rewrite !length_map, copies_length. lia. }
  pose proof (Escape_length_concat
                (copies source start (sorted_entries profile))) as Hle.
  rewrite copies_source in Hle.
  assert (flatten profile = [] ->
          length (MarkUpCode profile source) = length (Escape source))
    as Hempty.
  { intro H. rewrite MarkUpCode_interleave, (sorted_entries_nil _ H).
    cbn. now rewrite substring_all, !app_nil_r. }
  assert (Exists (fun e => types e <> []) (flatten profile) ->
          length (Escape source) < length (MarkUpCode profile source))
    as Hmark.
  { intro H. rewrite <- (sorted_entries_perm profile) in H.
    apply markers_length in H. lia. }
  split; [lia|]. split; [exact Hempty|]. split; [exact Hmark|].
  intro Hall. split; [|exact Hempty].
  intro Heq. destruct (flatten profile) as [|e es]; [reflexivity|].
  assert (length (Escape source) < length (MarkUpCode profile source));
    [|lia].
  apply Hmark. constructor. now inversion Hall.
Qed.

Lemma MarkUpCode_length_witness :
  let profile :=
    [ {| scriptId := str "42"; url := str "test";
         entries := [number_at 4] |} ] in
  Exists (fun e => types e <> []) (flatten profile) /\
  length (Escape (str "let x = 1;")) <
  length (MarkUpCode profile (str "let x = 1;")).
Proof.
  cbv zeta.
  assert (Exists (fun e => types e <> [])
            (flatten [ {| scriptId := str "42"; url := str "test";
                          entries := [number_at 4] |} ])) as H
    by (constructor; discriminate).
  split; [exact H|].
  exact (proj1 (proj2 (proj2 (MarkUpCode_length _ (str "let x = 1;")))) H).
Defined.

(** C7: the sorted samples have non-decreasing offsets; with every offset
    within the source, the cursor never retreats during the walk, and the
    pieces handed to [Escape] are, in order, the whole source: the text is
    these pieces, escaped, with the markers of each sample before the piece
    that starts at its offset. *)
Theorem MarkUpCode_walk_in_order (profile : list ScriptTypeProfile)
    (source : jsstring) :
  Forall (in_source source) (flatten profile) ->
  (forall i j d,
     i < j < length (sorted_entries profile) ->
     (offset (nth i (sorted_entries profile) d) <=
      offset (nth j (sorted_entries profile) d))%Z) /\
  StronglySorted Z.le (cursors source start (sorted_entries profile)) /\
  concat (copies source start (sorted_entries profile)) = source /\
  MarkUpCode profile source =
    interleave (map Escape (copies source start (sorted_entries profile)))
               (map markers (sorted_entries profile)).
Proof.
  intro Hin.
  rewrite <- (sorted_entries_perm profile) in Hin.
  split; [|split; [|split]].
  - intros i j d Hij.
    apply (StronglySorted_nth d (sorted_entries_sorted profile) Hij).
  - apply cursors_sorted.
    + apply sorted_entries_sorted.
    + exact Hin.
    + revert Hin. apply Forall_impl. intros e He. apply He.
    + cbn [start cursor]. lia.
  - apply copies_source.
  - apply MarkUpCode_interleave.
Qed.

Lemma MarkUpCode_walk_in_order_witness :
  let profile :=
    [ {| scriptId := str "42"; url := str "test";
         entries := [number_at 8; number_at 4; number_at 10] |} ] in
  Forall (in_source (str "let x = 1;")) (flatten profile) /\
  StronglySorted Z.le
    (cursors (str "let x = 1;") start (sorted_entries profile)) /\
  concat (copies (str "let x = 1;") start (sorted_entries profile)) =
    str "let x = 1;".
Proof.
  cbv zeta.
  assert (Forall (in_source (str "let x = 1;"))
            (flatten [ {| scriptId := str "42"; url := str "test";
                          entries := [number_at 8; number_at 4;
                                      number_at 10] |} ])) as H
    by (repeat constructor; unfold in_source; simpl; lia).
  split; [exact H|].
  destruct (MarkUpCode_walk_in_order _ H) as (_ & Hc & Hs & _).
  split; [exact Hc | exact Hs].
Defined.

(** C8: the sort keeps the samples of one offset in their input order; two
    samples at offset 0 give their two markers in input order, and the
    whole escaped source only after them. *)
Theorem sort_by_offset_stable (profile : list ScriptTypeProfile) :
  (forall o,
     filter (fun e => (offset e =? o)%Z) (sorted_entries profile) =
     filter (fun e => (offset e =? o)%Z) (flatten profile)) /\
  (forall source id u first second,
     MarkUpCode
       [ {| scriptId := id; url := u;
            entries := [ {| offset := 0; types := [first] |};
                         {| offset := 0; types := [second] |} ] |} ]
       source =
     marker first ++ marker second ++ Escape source).
Proof.
  split.
  - intro o. apply sort_stable, by_offset_key.
  - intros source id u first second.
    rewrite MarkUpCode_interleave.
    change (sorted_entries _)
      with [ {| offset := 0; types := [first] |};
             {| offset := 0; types := [second] |} ].
    cbn [copies map interleave]. rewrite !visit_cursor.
    cbn [start cursor offset markers types flat_map].
    rewrite !substring_empty, substring_all, Escape_nil, !app_nil_r.
    reflexivity.
Qed.

(** C9: without samples the text is the escaped source. *)
Theorem MarkUpCode_no_samples (profile : list ScriptTypeProfile)
    (source : jsstring) :
  flatten profile = [] -> MarkUpCode profile source = Escape source.
Proof.
  intro H. rewrite MarkUpCode_interleave, (sorted_entries_nil _ H).
  cbn [copies map interleave start cursor].
  now rewrite substring_all, !app_nil_r.
Qed.

Lemma MarkUpCode_no_samples_witness :
  let profile :=
    [ {| scriptId := str "42"; url := str "test"; entries := [] |} ] in
  flatten profile = [] /\
  MarkUpCode profile (str "a < b") = Escape (str "a < b").
Proof.
  cbv zeta. split; [reflexivity|].
  apply (@MarkUpCode_no_samples
           [ {| scriptId := str "42"; url := str "test"; entries := [] |} ]
           (str "a < b")).
  reflexivity.
Defined.

(** C10: [PrintType] appends the opening tag, the name of the type as it
    is, the closing tag and one space; the text of [MarkUpCode] holds this
    marker for every type of every sample, between the escaped pieces of the
    source, so a name with [<], [>] or [&] stays unescaped. *)
Theorem PrintType_marker_text :
  (forall type st,
     PrintType type st =
     {| result :=
          result st ++
          (str "<span style=" ++ DQUOTE ::
           str "background-color: rgb(255, 0, 0); color: white" ++ DQUOTE ::
           str ">") ++
          name type ++ str "</span>" ++ [SPACE];
        cursor := cursor st |}) /\
  (forall profile source,
     MarkUpCode profile source =
     interleave
       (map Escape (copies source start (sorted_entries profile)))
       (map (fun entry =>
               flat_map
                 (fun type =>
                    (str "<span style=" ++ DQUOTE ::
                     str "background-color: rgb(255, 0, 0); color: white" ++
                     DQUOTE :: str ">") ++
                    name type ++ str "</span>" ++ [SPACE])
                 (types entry))
            (sorted_entries profile))) /\
  MarkUpCode
    [ {| scriptId := str "42"; url := str "test";
         entries := [ {| offset := 1;
                         types := [ {| name := str "<b>&" |} ] |} ] |} ]
    (str "x") =
  str "x" ++
  (str "<span style=" ++ DQUOTE ::
   str "background-color: rgb(255, 0, 0); color: white" ++ DQUOTE ::
   str ">") ++
  str "<b>&" ++ str "</span>" ++ [SPACE].
Proof.
  split; [|split].
  - intros type st. rewrite PrintType_marker. reflexivity.
  - intros profile source. apply MarkUpCode_interleave.
  - reflexivity.
Qed.

(** The scenario of the specification: one sample of type number at
    offset 4 of [let x = 1;]. *)
Example MarkUpCode_let_x :
  MarkUpCode
    [ {| scriptId := str "42"; url := str "test";
         entries := [number_at 4] |} ]
    (str "let x = 1;") =
  str "let&nbsp;" ++ marker {| name := str "number" |} ++
  str "x&nbsp;=&nbsp;1;".
Proof. reflexivity. Qed.

(** ** Further properties *)

(** The log of a call that returns: the notifications that arrived after
    the listener was registered, in the order of arrival; those emitted
    while an earlier command was pending are not recorded. *)
Theorem CollectProfile_logs (R : Remote) (r : RemoteState R)
    (source : jsstring) (p : option (list ScriptTypeProfile))
    (msgs : list Message) :
  fst (run_CollectProfile R r source) = inr (p, msgs) ->
  exists r1 r2 r3 compiled r5 r6 taken r8 r9 r10,
    trace (snd (run_CollectProfile R r source)) =
      [ EvConnect;
        EvPost Runtime_enable r1;
        EvPost Profiler_enable r2;
        EvPost Profiler_startTypeProfile r3;
        EvPost (Runtime_compileScript source (str "test") true) compiled;
        EvOn;
        EvPost (Runtime_runScript (res_scriptId (reply_result compiled))) r5;
        EvPost HeapProfiler_collectGarbage r6;
        EvPost Profiler_takeTypeProfile taken;
        EvPost Profiler_stopTypeProfile r8;
        EvPost Profiler_disable r9;
        EvPost Runtime_disable r10;
        EvDisconnect ] /\
    msgs =
      notifications r5 ++ notifications r6 ++ notifications taken ++
      notifications r8 ++ notifications r9 ++ notifications r10.
Proof.
  intro H. rewrite run_CollectProfile_protocol in *. cbn [fst snd] in *.
  destruct (protocol R source (new_session R r)) as [[e|[]] w'] eqn:E;
    cbn [fst snd] in *; [discriminate|].
  apply protocol_resolved in E.
  destruct E as (r1 & r2 & r3 & compiled & r5 & r6 & taken & raw & r8 & r9
                 & r10 & Ht & _ & _ & Hm).
  exists r1, r2, r3, compiled, r5, r6, taken, r8, r9, r10.
  split; [cbn [log trace]; rewrite Ht; reflexivity|].
  inversion H; subst. exact Hm.
Qed.

Lemma CollectProfile_logs_witness :
  fst (run_CollectProfile (scripted answer_ok) tt (str "let x = 1;")) =
    inr (Some kept_profiles, logged) /\
  exists r1 r2 r3 compiled r5 r6 taken r8 r9 r10,
    trace (snd (run_CollectProfile (scripted answer_ok) tt
                  (str "let x = 1;"))) =
      [ EvConnect;
        EvPost Runtime_enable r1;
        EvPost Profiler_enable r2;
        EvPost Profiler_startTypeProfile r3;
        EvPost (Runtime_compileScript (str "let x = 1;") (str "test") true)
          compiled;
        EvOn;
        EvPost (Runtime_runScript (res_scriptId (reply_result compiled))) r5;
        EvPost HeapProfiler_collectGarbage r6;
        EvPost Profiler_takeTypeProfile taken;
        EvPost Profiler_stopTypeProfile r8;
        EvPost Profiler_disable r9;
        EvPost Runtime_disable r10;
        EvDisconnect ] /\
    logged =
      notifications r5 ++ notifications r6 ++ notifications taken ++
      notifications r8 ++ notifications r9 ++ notifications r10.
Proof.
  split; [reflexivity|].
  apply (@CollectProfile_logs (scripted answer_ok) tt (str "let x = 1;")
           (Some kept_profiles) logged).
  reflexivity.
Defined.

Lemma flatten_from (profile : list ScriptTypeProfile)
    (acc : list TypeProfileEntry) :
  fold_left (fun result next => result ++ entries next) profile acc =
  acc ++ concat (map entries profile).
Proof.
  revert acc. induction profile as [|x profile IH]; intro acc; cbn.
  - now rewrite app_nil_r.
  - now rewrite IH, app_assoc.
Qed.

(** The samples walked by [MarkUpCode] are the entries of all script
    profiles, in some order: none is lost and none is added. *)
Theorem sorted_entries_all (profile : list ScriptTypeProfile) :
  flatten profile = concat (map entries profile) /\
  Permutation (sorted_entries profile) (concat (map entries profile)).
Proof.
  assert (flatten profile = concat (map entries profile)) as H
    by apply flatten_from.
  split; [exact H|]. rewrite <- H. apply sorted_entries_perm.
Qed.

Lemma escape_unit_length (c : char16) : 1 <= length (escape_unit c).
Proof. unit_cases c; lia. Qed.

Lemma escape_scan_grows (n : nat) (s : jsstring) :
  length s <= n -> length s <= length (escape_scan s).
Proof.
  revert s. induction n as [|n IH]; intros s Hn.
  - destruct s; [simpl; lia | simpl in Hn; lia].
  - destruct s as [|c [|d t]]; [simpl; lia | |].
    + pose proof (escape_unit_length c). simpl. lia.
    + cbn [escape_scan].
      destruct (char16_eqb c CR && char16_eqb d LF).
      * rewrite length_app. specialize (IH t). simpl in *. lia.
      * rewrite length_app. pose proof (escape_unit_length c).
        specialize (IH (d :: t)). simpl in *. lia.
Qed.

(** [Escape] never makes a string shorter. *)
Theorem Escape_grows (s : jsstring) : length s <= length (Escape s).
Proof.
  rewrite Escape_scan. apply escape_scan_grows with (n := length s). lia.
Qed.

(** Whatever the offsets of the samples, also negative ones or ones past
    the end of the source, the pieces handed to [Escape] are, in order, the
    whole source. *)
Theorem MarkUpCode_copies_whole_source (profile : list ScriptTypeProfile)
    (source : jsstring) :
  concat (copies source start (sorted_entries profile)) = source /\
  length (copies source start (sorted_entries profile)) =
    S (length (concat (map entries profile))).
Proof.
  split; [apply copies_source|].
  rewrite copies_length. f_equal.
  rewrite (Permutation_length (sorted_entries_perm profile)).
  unfold flatten. now rewrite flatten_from.
Qed.

(** [MarkUpCode] escapes every piece on its own: a sample whose offset lies
    between a CR and the LF after it parts the pair, so the CR stays and
    only the LF becomes a line break. *)
Example MarkUpCode_parts_CRLF :
  MarkUpCode
    [ {| scriptId := str "42"; url := str "test";
         entries := [ {| offset := 1; types := [] |} ] |} ]
    [CR; LF] = CR :: str "<br/>" /\
  Escape [CR; LF] = str "<br/>".
Proof. split; reflexivity. Qed.

(** ** [Escape] and concatenation *)

Lemma starts_with_LF_cons (d : char16) (t : jsstring) :
  starts_with [LF] (d :: t) = char16_eqb LF d.
Proof. simpl. apply andb_true_r. Qed.

Lemma escape_scan_app (n : nat) (a b : jsstring) :
  length a <= n ->
  last a LF <> CR \/ starts_with [LF] b = false ->
  escape_scan (a ++ b) = escape_scan a ++ escape_scan b.
Proof.
  revert a. induction n as [|n IH]; intros a Hn H.
  - destruct a; [reflexivity | simpl in Hn; lia].
  - destruct a as [|c [|d a]]; [reflexivity | |].
    + cbn [app]. rewrite escape_scan_cons; [reflexivity|].
      destruct H as [H|H]; [left; exact H | right; exact H].
    + change ((c :: d :: a) ++ b) with (c :: d :: (a ++ b)).
      assert (last (d :: a) LF <> CR \/ starts_with [LF] b = false) as H'
        by exact H.
      cbn [escape_scan].
      destruct (char16_eqb c CR && char16_eqb d LF).
      * rewrite <- app_assoc. f_equal. apply IH; [simpl in Hn; lia|].
        destruct a; [left; discriminate | exact H].
      * rewrite <- app_assoc. f_equal.
        apply (IH (d :: a)); [simpl in *; lia | exact H'].
Qed.

(** [Escape] distributes over a concatenation unless the cut parts a
    CR+LF pair; where it does, the CR is kept and the LF alone becomes the
    line break. *)
Theorem Escape_app (a b : jsstring) :
  (last a LF <> CR \/ starts_with [LF] b = false ->
   Escape (a ++ b) = Escape a ++ Escape b) /\
  Escape ((a ++ [CR]) ++ LF :: b) = Escape a ++ str "<br/>" ++ Escape b /\
  Escape (a ++ [CR]) ++ Escape (LF :: b) =
    Escape a ++ CR :: str "<br/>" ++ Escape b.
Proof.
  assert (forall x y, last x LF <> CR \/ starts_with [LF] y = false ->
                      Escape (x ++ y) = Escape x ++ Escape y) as Happ.
  { intros x y H. rewrite !Escape_scan.
    now apply escape_scan_app with (n := length x). }
  split; [apply Happ|]. split.
  - rewrite <- app_assoc. cbn [app].
    rewrite Happ by (right; reflexivity).
    now rewrite (Escape_scan (CR :: LF :: b)), escape_scan_CRLF, <- Escape_scan.
  - rewrite (Happ a [CR]) by (right; reflexivity).
    rewrite (Escape_scan (LF :: b)), escape_scan_cons by (left; discriminate).
    rewrite <- Escape_scan, <- app_assoc. reflexivity.
Qed.

Lemma Escape_app_witness :
  (last (str "a<b") LF <> CR \/ starts_with [LF] (str " c") = false) /\
  Escape (str "a<b" ++ str " c") = Escape (str "a<b") ++ Escape (str " c").
Proof.
  assert (last (str "a<b") LF <> CR \/ starts_with [LF] (str " c") = false)
    as H by (right; reflexivity).
  split; [exact H|].
  exact (proj1 (Escape_app (str "a<b") (str " c")) H).
Defined.

(** ** What [Escape] leaves *)

Lemma escape_unit_clean (c : char16) :
  Forall (fun x => x <> SPACE /\ x <> LF /\ x <> DQUOTE) (escape_unit c).
Proof.
  unit_cases c;
    repeat (constructor; [repeat split; try discriminate; assumption|]);
    constructor.
Qed.

Lemma escape_scan_clean (n : nat) (s : jsstring) :
  length s <= n ->
  Forall (fun x => x <> SPACE /\ x <> LF /\ x <> DQUOTE) (escape_scan s).
Proof.
  revert s. induction n as [|n IH]; intros s Hn.
  - destruct s; [constructor | simpl in Hn; lia].
  - destruct s as [|c [|d t]]; [constructor | apply escape_unit_clean |].
    change (escape_scan (c :: d :: t))
      with (if char16_eqb c CR && char16_eqb d LF
            then BR ++ escape_scan t
            else escape_unit c ++ escape_scan (d :: t)).
    destruct (char16_eqb c CR && char16_eqb d LF); apply Forall_app; split.
    + repeat (constructor; [repeat split; discriminate|]). constructor.
    + apply IH. simpl in Hn. lia.
    + apply escape_unit_clean.
    + apply IH. simpl in *. lia.
Qed.

(** The escaped text holds no space, no line feed and no double quote,
    whatever the string. *)
Theorem Escape_clean (s : jsstring) :
  Forall (fun x => x <> SPACE /\ x <> LF /\ x <> DQUOTE) (Escape s).
Proof.
  rewrite Escape_scan. apply escape_scan_clean with (n := length s). lia.
Qed.

(** ** [MarkUpCode] over a source without CR+LF *)

Lemma starts_with_app_l (p a b : jsstring) :
  starts_with p a = true -> starts_with p (a ++ b) = true.
Proof.
  revert a. induction p as [|x p IH]; intros a H; [reflexivity|].
  destruct a as [|y a]; [discriminate|]. simpl in *.
  apply andb_true_iff in H. destruct H as [-> H]. now rewrite IH.
Qed.

Lemma occurs_app_false (p a b : jsstring) :
  occurs p (a ++ b) = false -> occurs p a = false /\ occurs p b = false.
Proof.
  induction a as [|c a IH]; cbn [app occurs]; intro H.
  - split; [|exact H].
    destruct (starts_with p []) eqn:E; [|reflexivity].
    apply starts_with_app_l with (b := b) in E. cbn [app] in E.
    destruct b; cbn [occurs] in H; rewrite E in H; discriminate.
  - apply orb_false_iff in H. destruct H as [H1 H2].
    destruct (IH H2) as [Ha Hb]. split; [|exact Hb].
    rewrite Ha, orb_false_r.
    destruct (starts_with p (c :: a)) eqn:E; [|reflexivity].
    apply starts_with_app_l with (b := b) in E. cbn [app] in E. congruence.
Qed.

Lemma Escape_units (s : jsstring) :
  occurs [CR; LF] s = false -> Escape s = flat_map escape_unit s.
Proof. intro H. rewrite Escape_scan. now apply escape_scan_units. Qed.

Lemma Escape_concat (l : list jsstring) :
  occurs [CR; LF] (concat l) = false ->
  concat (map Escape l) = Escape (concat l).
Proof.
  intro H. rewrite (Escape_units _ H).
  induction l as [|x l IH]; [reflexivity|].
  cbn [concat map] in *. apply occurs_app_false in H. destruct H as [Hx Hl].
  now rewrite flat_map_app, IH, (Escape_units _ Hx).
Qed.

Lemma markers_empty (es : list TypeProfileEntry) :
  length (concat (map markers es)) = 0 <-> Forall (fun e => types e = []) es.
Proof.
  induction es as [|e es IH]; cbn [map concat].
  - split; [constructor | reflexivity].
  - rewrite length_app. split.
    + intro H. constructor.
      * unfold markers in H. destruct (types e) as [|t ts]; [reflexivity|].
        cbn [flat_map] in H. rewrite length_app in H.
        pose proof (marker_length t). lia.
      * apply IH. lia.
    + intro H. inversion H as [|? ? He Hes]; subst.
      unfold markers at 1. rewrite He. apply IH in Hes. simpl. lia.
Qed.

(** Over a source without a CR+LF pair the escaped pieces are together the
    escaped source: the annotated text is the escaped source with the
    markers put in, its length is the sum of both, and it is as long as the
    escaped source exactly when no sample has a type. *)
Theorem MarkUpCode_without_CRLF (profile : list ScriptTypeProfile)
    (source : jsstring) :
  occurs [CR; LF] source = false ->
  concat (map Escape (copies source start (sorted_entries profile))) =
    Escape source /\
  length (MarkUpCode profile source) =
    length (Escape source) +
    length (concat (map markers (sorted_entries profile))) /\
  (length (MarkUpCode profile source) = length (Escape source) <->
   Forall (fun e => types e = []) (flatten profile)).
Proof.
  intro H.
  assert (concat (map Escape (copies source start (sorted_entries profile))) =
          Escape source) as Hc.
  { rewrite Escape_concat; rewrite copies_source; [reflexivity | exact H]. }
  assert (length (MarkUpCode profile source) =
          length (Escape source) +
          length (concat (map markers (sorted_entries profile)))) as Hl.
  { rewrite MarkUpCode_interleave, interleave_length, Hc; [reflexivity|].
    rewrite !length_map, copies_length. lia. }
  split; [exact Hc|]. split; [exact Hl|].
  assert (Forall (fun e => types e = []) (flatten profile) <->
          Forall (fun e => types e = []) (sorted_entries profile)) as Hp.
  { split; intro Hf.
    - now rewrite (sorted_entries_perm profile).
    - now rewrite <- (sorted_entries_perm profile). }
  rewrite Hp, <- markers_empty. lia.
Qed.

Lemma MarkUpCode_without_CRLF_witness :
  let profile :=
    [ {| scriptId := str "42"; url := str "test";
         entries := [number_at 8; number_at 4] |} ] in
  occurs [CR; LF] (str "let x = 1;") = false /\
  length (MarkUpCode profile (str "let x = 1;")) =
    length (Escape (str "let x = 1;")) +
    length (concat (map markers (sorted_entries profile))).
Proof.
  cbv zeta. split; [reflexivity|].
  apply (@MarkUpCode_without_CRLF
           [ {| scriptId := str "42"; url := str "test";
                entries := [number_at 8; number_at 4] |} ]
           (str "let x = 1;")).
  reflexivity.
Defined.

(** ** The session driver: every path of the [try] block *)

Ltac path_step :=
  match goal with
  | |- context [remote_connect ?R ?s] =>
      destruct (remote_connect R s) as [[?|] ?] eqn:?
  | |- context [remote_post ?R ?s ?c] =>
      let reply := fresh "reply" in
      let res := fresh "res" in
      let E := fresh "E" in
      destruct (remote_post R s c) as [reply ?] eqn:?;
      cbn [fst snd remote trace listening messages profile];
      destruct (callback (error reply) (reply_result reply))
        as [?|res] eqn:E;
      [|pose proof (callback_inr _ _ E); subst res]
  | |- context [match res_result ?x with _ => _ end] =>
      destruct (res_result x) eqn:?
  end;
  cbn [fst snd remote trace listening messages profile].

Ltac solve_clean :=
  let c := fresh "c" in
  let reply := fresh "reply" in
  let reason := fresh "reason" in
  let Hin := fresh "Hin" in
  let Hrej := fresh "Hrej" in
  intros c reply reason Hin Hrej; unfold rejects in Hrej;
  repeat (apply in_app_or in Hin; destruct Hin as [Hin|Hin]);
  repeat (destruct Hin as [Hin|Hin];
          [try discriminate Hin; inversion Hin; subst; congruence|]);
  try contradiction.

Ltac solve_in :=
  repeat first [ left; reflexivity
               | apply in_or_app; right; left; reflexivity
               | apply in_or_app; left ].

Ltac path_leaf n :=
  first [ exists None, n; split; [reflexivity|]
        | eexists; exists n; split; [reflexivity|] ];
  split;
  [ let Hn := fresh "Hn" in
    intro Hn;
    first [ exfalso; lia
          | eexists; split; [solve_in | reflexivity] ]
  | ].

Ltac reject_leaf n :=
  path_leaf n; right; right; do 3 eexists;
  split; [reflexivity|]; split; [eassumption | solve_clean].

Lemma protocol_paths (R : Remote) (r : RemoteState R) (source : jsstring) :
  exists script n,
    posted (trace (snd (protocol R source (new_session R r)))) =
      firstn n (all_commands source script) /\
    (4 < n ->
     exists compiled,
       In (EvPost (Runtime_compileScript source (str "test") true) compiled)
          (trace (snd (protocol R source (new_session R r)))) /\
       script = res_scriptId (reply_result compiled)) /\
    match fst (protocol R source (new_session R r)) with
    | inr _ =>
        n = 10 /\ clean (trace (snd (protocol R source (new_session R r))))
    | inl reason =>
        (exists e,
           reason = ConnectError e /\
           trace (snd (protocol R source (new_session R r))) = [EvConnect]) \/
        (reason = TypeError /\ n = 7 /\
         clean (trace (snd (protocol R source (new_session R r)))) /\
         exists taken before,
           trace (snd (protocol R source (new_session R r))) =
             before ++ [EvPost Profiler_takeTypeProfile taken] /\
           res_result (reply_result taken) = None) \/
        (exists before c reply,
           trace (snd (protocol R source (new_session R r))) =
             before ++ [EvPost c reply] /\
           rejects reply reason /\ clean before)
    end.
Proof.
  unfold protocol, bind, connect, postAsync, on_consoleAPICalled,
    set_profile, defined, ret, throw, new_session.
  cbn [remote trace listening messages profile].
  path_step.
  { path_leaf 0. left. eexists. split; reflexivity. }
  path_step; [reject_leaf 1|].
  path_step; [reject_leaf 2|].
  path_step; [reject_leaf 3|].
  path_step; [reject_leaf 4|].
  path_step; [reject_leaf 5|].
  path_step; [reject_leaf 6|].
  path_step; [reject_leaf 7|].
  path_step.
  2:{ path_leaf 7. right. left.
      split; [reflexivity|]. split; [reflexivity|]. split; [solve_clean|].
      do 2 eexists. split; [reflexivity | assumption]. }
  path_step; [reject_leaf 8|].
  path_step; [reject_leaf 9|].
  path_step; [reject_leaf 10|].
  path_leaf 10. split; [reflexivity | solve_clean].
Qed.

Lemma posted_app (t u : list Event) : posted (t ++ u) = posted t ++ posted u.
Proof.
  induction t as [|e t IH]; [reflexivity|].
  destruct e; cbn [app posted]; now rewrite IH.
Qed.

(** The commands of one call are a beginning of the fixed sequence, in its
    order; [Runtime.runScript] is posted only after the script was compiled,
    with the identifier the compilation answered, and a call that returns
    has posted all ten. *)
Theorem CollectProfile_command_order (R : Remote) (r : RemoteState R)
    (source : jsstring) :
  exists script n,
    posted (trace (snd (run_CollectProfile R r source))) =
      firstn n (all_commands source script) /\
    (4 < n ->
     exists compiled,
       In (EvPost (Runtime_compileScript source (str "test") true) compiled)
          (trace (snd (run_CollectProfile R r source))) /\
       script = res_scriptId (reply_result compiled)) /\
    (forall p msgs,
       fst (run_CollectProfile R r source) = inr (p, msgs) -> n = 10).
Proof.
  destruct (protocol_paths R r source) as (script & n & Hp & Hs & Hout).
  exists script, n. rewrite run_CollectProfile_protocol.
  cbn [fst snd log trace]. split; [|split].
  - rewrite posted_app, Hp. cbn [posted]. apply app_nil_r.
  - intro Hn. destruct (Hs Hn) as (compiled & Hin & Heq).
    exists compiled. split; [apply in_or_app; now left | exact Heq].
  - intros p msgs H.
    destruct (fst (protocol R source (new_session R r)));
      [discriminate | apply Hout].
Qed.

(** A call is rejected for one of three causes: [connect] threw, and then
    nothing was posted; or [Profiler.takeTypeProfile] answered without a
    result, and then the three closing commands were not posted; or the
    last command posted was rejected, with this reason.  In each case
    [disconnect] is the only call that follows. *)
Theorem CollectProfile_failure_causes (R : Remote) (r : RemoteState R)
    (source : jsstring) (reason : Reason) :
  fst (run_CollectProfile R r source) = inl reason ->
  (exists e,
     reason = ConnectError e /\
     trace (snd (run_CollectProfile R r source)) =
       [EvConnect; EvDisconnect]) \/
  (reason = TypeError /\
   exists script taken before,
     posted (trace (snd (run_CollectProfile R r source))) =
       firstn 7 (all_commands source script) /\
     trace (snd (run_CollectProfile R r source)) =
       before ++ [EvPost Profiler_takeTypeProfile taken; EvDisconnect] /\
     res_result (reply_result taken) = None /\
     clean before) \/
  (exists before c reply,
     trace (snd (run_CollectProfile R r source)) =
       before ++ [EvPost c reply; EvDisconnect] /\
     rejects reply reason /\ clean before).
Proof.
  destruct (protocol_paths R r source) as (script & n & Hp & _ & Hout).
  rewrite run_CollectProfile_protocol. cbn [fst snd log trace].
  destruct (fst (protocol R source (new_session R r))) as [e|[]];
    [|discriminate].
  intro H. inversion H; subst e; clear H.
  destruct Hout as [(e & -> & Ht)|[(-> & -> & Hc & taken & before & Ht & Hr)|
                    (before & c & reply & Ht & Hrej & Hc)]].
  - left. exists e. now rewrite Ht.
  - right. left. split; [reflexivity|].
    exists script, taken, before. rewrite posted_app, Hp, Ht, <- app_assoc.
    cbn [posted]. rewrite app_nil_r. repeat split; try assumption.
    intros c' reply' reason' Hin. apply (Hc c' reply' reason').
    rewrite Ht. apply in_or_app. now left.
  - right. right. exists before, c, reply.
    rewrite Ht, <- app_assoc. repeat split; assumption.
Qed.

Lemma CollectProfile_failure_causes_witness :
  fst (run_CollectProfile (scripted answer_throw) tt (str "throw 1")) =
    inl (ExceptionDescription (Some (str "Error: boom"))) /\
  ((exists e,
      ExceptionDescription (Some (str "Error: boom")) = ConnectError e /\
      trace (snd (run_CollectProfile (scripted answer_throw) tt
                    (str "throw 1"))) =
        [EvConnect; EvDisconnect]) \/
   (ExceptionDescription (Some (str "Error: boom")) = TypeError /\
    exists script taken before,
      posted (trace (snd (run_CollectProfile (scripted answer_throw) tt
                            (str "throw 1")))) =
        firstn 7 (all_commands (str "throw 1") script) /\
      trace (snd (run_CollectProfile (scripted answer_throw) tt
                    (str "throw 1"))) =
        before ++ [EvPost Profiler_takeTypeProfile taken; EvDisconnect] /\
      res_result (reply_result taken) = None /\
      clean before) \/
   (exists before c reply,
      trace (snd (run_CollectProfile (scripted answer_throw) tt
                    (str "throw 1"))) =
        before ++ [EvPost c reply; EvDisconnect] /\
      rejects reply (ExceptionDescription (Some (str "Error: boom"))) /\
      clean before)).
Proof.
  split; [reflexivity|].
  apply (@CollectProfile_failure_causes (scripted answer_throw) tt
           (str "throw 1") (ExceptionDescription (Some (str "Error: boom")))).
  reflexivity.
Defined.

(** When [connect] throws, the call is rejected with its error, no command
    is posted and no listener registered, and [disconnect] is still
    called. *)
Theorem CollectProfile_connect_fault (R : Remote) (r r' : RemoteState R)
    (source e : jsstring) :
  remote_connect R r = (Some e, r') ->
  fst (run_CollectProfile R r source) = inl (ConnectError e) /\
  trace (snd (run_CollectProfile R r source)) = [EvConnect; EvDisconnect] /\
  remote (snd (run_CollectProfile R r source)) = r'.
Proof.
  intro H. rewrite run_CollectProfile_protocol.
  assert (protocol R source (new_session R r) =
          (inl (ConnectError e),
           {| remote := r'; trace := [EvConnect]; listening := false;
              messages := []; profile := None |})) as ->.
  { unfold protocol. unfold bind at 1. unfold connect.
    cbn [new_session remote]. now rewrite H. }
  repeat split.
Qed.

Lemma CollectProfile_connect_fault_witness :
  remote_connect refusing tt = (Some (str "already connected"), tt) /\
  fst (run_CollectProfile refusing tt (str "let x = 1;")) =
    inl (ConnectError (str "already connected")).
Proof.
  assert (remote_connect refusing tt = (Some (str "already connected"), tt))
    as H by reflexivity.
  split; [exact H|].
  exact (proj1 (@CollectProfile_connect_fault refusing tt tt
                  (str "let x = 1;") (str "already connected") H)).
Defined.

(** ** Replacement of the first occurrence *)

Lemma plainb_plain (s : jsstring) : plainb s = true -> plain s.
Proof.
  unfold plainb, plain. rewrite forallb_forall, Forall_forall.
  intros H c Hc Heq. specialize (H c Hc). subst c.
  now rewrite char16_eqb_refl in H.
Qed.

Lemma index_of_absent (p s : jsstring) :
  occurs p s = false -> index_of p s = None.
Proof.
  induction s as [|c s IH]; cbn [occurs index_of]; intro H;
    apply orb_false_iff in H; destruct H as [-> H]; [reflexivity|].
  now rewrite IH.
Qed.

Lemma index_of_head (p s : jsstring) :
  starts_with p s = true -> index_of p s = Some 0.
Proof. intro H. destruct s; cbn [index_of]; now rewrite H. Qed.

Lemma starts_with_long (p x y : jsstring) :
  length p <= length x -> starts_with p (x ++ y) = starts_with p x.
Proof.
  revert x. induction p as [|c p IH]; intros x H; [reflexivity|].
  destruct x as [|d x]; [simpl in H; lia|].
  cbn [app starts_with]. rewrite IH by (simpl in H; lia). reflexivity.
Qed.

Lemma index_of_first (p a b : jsstring) :
  p <> [] -> occurs p (a ++ removelast p) = false ->
  index_of p (a ++ p ++ b) = Some (length a).
Proof.
  intros Hp. induction a as [|c a IH]; intro H.
  - change ([] ++ p ++ b) with (p ++ b).
    apply index_of_head, starts_with_app.
  - cbn [app occurs] in H. apply orb_false_iff in H. destruct H as [H1 H2].
    assert (starts_with p (c :: a ++ p ++ b) = false) as Hs.
    { assert (c :: a ++ p ++ b =
              (c :: a ++ removelast p) ++ [last p LF] ++ b) as ->.
      { cbn [app]. f_equal. rewrite <- app_assoc. f_equal.
        rewrite (app_removelast_last LF Hp) at 1.
        now rewrite <- app_assoc. }
      rewrite starts_with_long; [exact H1|].
      cbn [length]. rewrite length_app.
      rewrite (app_removelast_last LF Hp) at 1.
      rewrite length_app. simpl. lia. }
    cbn [app index_of length]. rewrite Hs, IH by exact H2. reflexivity.
Qed.

Lemma replace_first_at (p r a b : jsstring) :
  p <> [] -> occurs p (a ++ removelast p) = false ->
  replace_first p r (a ++ p ++ b) = a ++ GetSubstitution p a b r ++ b.
Proof.
  intros Hp H. unfold replace_first. rewrite index_of_first by assumption.
  cbv zeta.
  assert (firstn (length a) (a ++ p ++ b) = a) as ->.
  { rewrite firstn_app, Nat.sub_diag, firstn_all. cbn. apply app_nil_r. }
  assert (skipn (length a + length p) (a ++ p ++ b) = b) as ->.
  { rewrite app_assoc, <- length_app, skipn_app, Nat.sub_diag, skipn_all.
    reflexivity. }
  reflexivity.
Qed.

Lemma GetSubstitution_app_plain (m a b x y : jsstring) :
  plain x ->
  GetSubstitution m a b (x ++ y) = x ++ GetSubstitution m a b y.
Proof.
  induction 1 as [|c x Hc _ IH]; [reflexivity|].
  cbn [app GetSubstitution]. rewrite (char16_eqb_neq Hc). now rewrite IH.
Qed.

Lemma GetSubstitution_plain (m a b r : jsstring) :
  plain r -> GetSubstitution m a b r = r.
Proof.
  intro H. rewrite <- (app_nil_r r) at 1.
  rewrite GetSubstitution_app_plain by exact H. apply app_nil_r.
Qed.

(** A pattern that does not occur leaves the string as it is, whatever
    the replacement. *)
Theorem replace_first_absent (p r s : jsstring) :
  occurs p s = false -> replace_first p r s = s.
Proof. intro H. unfold replace_first. now rewrite index_of_absent. Qed.

Lemma replace_first_absent_witness :
  occurs (str "RESULT") (str "<pre>SCRIPT</pre>") = false /\
  replace_first (str "RESULT") (str "x") (str "<pre>SCRIPT</pre>") =
    str "<pre>SCRIPT</pre>".
Proof.
  split; [reflexivity|].
  apply (@replace_first_absent (str "RESULT") (str "x")
           (str "<pre>SCRIPT</pre>")).
  reflexivity.
Defined.

Lemma replace_first_at_plain (p r a b : jsstring) :
  p <> [] -> occurs p (a ++ removelast p) = false -> plain r ->
  replace_first p r (a ++ p ++ b) = a ++ r ++ b.
Proof.
  intros Hp H Hr. rewrite replace_first_at by assumption.
  now rewrite GetSubstitution_plain.
Qed.

(** Only the first occurrence of the pattern is replaced: what follows it
    stays, further occurrences included.  A replacement without a dollar is
    put in as it is. *)
Theorem replace_first_once (p r a b : jsstring) :
  p <> [] -> occurs p (a ++ removelast p) = false -> plain r ->
  replace_first p r (a ++ p ++ b) = a ++ r ++ b.
Proof.
  intros Hp H Hr. destruct p as [|c p]; [contradiction|].
  now apply replace_first_at_plain.
Qed.

Lemma replace_first_once_witness :
  str "SCRIPT" <> [] /\
  occurs (str "SCRIPT") (str "<pre>" ++ removelast (str "SCRIPT")) = false /\
  plain (str "x = 1") /\
  replace_first (str "SCRIPT") (str "x = 1")
    (str "<pre>" ++ str "SCRIPT" ++ str "</pre>SCRIPT") =
  str "<pre>" ++ str "x = 1" ++ str "</pre>SCRIPT".
Proof.
  assert (str "SCRIPT" <> []) as H1 by discriminate.
  assert (occurs (str "SCRIPT") (str "<pre>" ++ removelast (str "SCRIPT")) =
          false) as H2 by reflexivity.
  assert (plain (str "x = 1")) as H3 by (apply plainb_plain; reflexivity).
  split; [exact H1|]. split; [exact H2|]. split; [exact H3|].
  exact (@replace_first_once (str "SCRIPT") (str "x = 1") (str "<pre>")
           (str "</pre>SCRIPT") H1 H2 H3).
Defined.

(** A dollar in the replacement is read as a template: [$$] puts in one
    dollar, [$&] the pattern, [$`] the text before the match and [$'] the
    text after it; before any other code unit the dollar stays. *)
Theorem replace_first_dollar (p a b x y : jsstring) :
  p <> [] -> occurs p (a ++ removelast p) = false -> plain x -> plain y ->
  replace_first p (x ++ [DOLLAR; DOLLAR] ++ y) (a ++ p ++ b) =
    a ++ (x ++ [DOLLAR] ++ y) ++ b /\
  replace_first p (x ++ [DOLLAR; AMP] ++ y) (a ++ p ++ b) =
    a ++ (x ++ p ++ y) ++ b /\
  replace_first p (x ++ [DOLLAR; BACKTICK] ++ y) (a ++ p ++ b) =
    a ++ (x ++ a ++ y) ++ b /\
  replace_first p (x ++ [DOLLAR; APOSTROPHE] ++ y) (a ++ p ++ b) =
    a ++ (x ++ b ++ y) ++ b /\
  (forall d,
     d <> DOLLAR -> d <> AMP -> d <> BACKTICK -> d <> APOSTROPHE ->
     replace_first p (x ++ [DOLLAR; d] ++ y) (a ++ p ++ b) =
       a ++ (x ++ [DOLLAR; d] ++ y) ++ b).
Proof.
  intros Hp H Hx Hy.
  assert (forall t, GetSubstitution p a b (x ++ t) =
                    x ++ GetSubstitution p a b t) as Hxt
    by (intro t; now apply GetSubstitution_app_plain).
  pose proof (GetSubstitution_plain p a b Hy) as Hyt.
  repeat split; try intros d H1 H2 H3 H4;
    rewrite replace_first_at, Hxt by assumption; do 2 f_equal.
  - cbn. now rewrite Hyt.
  - cbn. now rewrite Hyt.
  - cbn. now rewrite Hyt.
  - cbn. now rewrite Hyt.
  - change ([DOLLAR; d] ++ y) with (DOLLAR :: d :: y).
    cbn [GetSubstitution]. rewrite char16_eqb_refl.
    rewrite (char16_eqb_neq H1), (char16_eqb_neq H2), (char16_eqb_neq H3),
      (char16_eqb_neq H4).
    now rewrite Hyt.
Qed.

Lemma replace_first_dollar_witness :
  str "SCRIPT" <> [] /\
  occurs (str "SCRIPT") (str "<pre>" ++ removelast (str "SCRIPT")) = false /\
  plain (str "a") /\ plain (str "b") /\
  replace_first (str "SCRIPT") (str "a" ++ [DOLLAR; AMP] ++ str "b")
    (str "<pre>" ++ str "SCRIPT" ++ str "</pre>") =
  str "<pre>" ++ (str "a" ++ str "SCRIPT" ++ str "b") ++ str "</pre>".
Proof.
  assert (str "SCRIPT" <> []) as H1 by discriminate.
  assert (occurs (str "SCRIPT") (str "<pre>" ++ removelast (str "SCRIPT")) =
          false) as H2 by reflexivity.
  assert (plain (str "a")) as H3 by (apply plainb_plain; reflexivity).
  assert (plain (str "b")) as H4 by (apply plainb_plain; reflexivity).
  split; [exact H1|]. split; [exact H2|]. split; [exact H3|].
  split; [exact H4|].
  exact (proj1 (proj2 (@replace_first_dollar (str "SCRIPT") (str "<pre>")
                         (str "</pre>") (str "a") (str "b") H1 H2 H3 H4))).
Defined.

(** ** The page *)

Lemma plain_app (x y : jsstring) : plain x -> plain y -> plain (x ++ y).
Proof. intros Hx Hy. apply Forall_app. now split. Qed.

(** With the three placeholders in the order of the substitutions, none
    of them met earlier, and texts without a dollar, the page is the
    template with the script, the result and the log in their places. *)
Theorem fill_plain (t0 t1 t2 t3 script result message_log : jsstring) :
  occurs (str "SCRIPT") (t0 ++ str "SCRIP") = false ->
  occurs (str "RESULT") ((t0 ++ script ++ t1) ++ str "RESUL") = false ->
  occurs (str "CONSOLE")
    ((t0 ++ script ++ t1 ++ result ++ t2) ++ str "CONSOL") = false ->
  plain script -> plain result -> plain message_log ->
  fill (t0 ++ str "SCRIPT" ++ t1 ++ str "RESULT" ++ t2 ++ str "CONSOLE" ++ t3)
       script result message_log =
  t0 ++ script ++ t1 ++ result ++ t2 ++ message_log ++ t3.
Proof.
  intros H1 H2 H3 Hs Hr Hl. unfold fill. cbn [fold_left].
  rewrite (@replace_first_at_plain (str "SCRIPT") script t0) by
    (assumption || discriminate).
  replace (t0 ++ script ++ t1 ++ str "RESULT" ++ t2 ++ str "CONSOLE" ++ t3)
    with ((t0 ++ script ++ t1) ++ str "RESULT" ++ t2 ++ str "CONSOLE" ++ t3)
    by now rewrite <- !app_assoc.
  rewrite (@replace_first_at_plain (str "RESULT") result (t0 ++ script ++ t1)) by
    (assumption || discriminate).
  replace ((t0 ++ script ++ t1) ++ result ++ t2 ++ str "CONSOLE" ++ t3)
    with ((t0 ++ script ++ t1 ++ result ++ t2) ++ str "CONSOLE" ++ t3)
    by now rewrite <- !app_assoc.
  rewrite (@replace_first_at_plain (str "CONSOLE") message_log
             (t0 ++ script ++ t1 ++ result ++ t2)) by
    (assumption || discriminate).
  now rewrite <- !app_assoc.
Qed.

Lemma fill_plain_witness :
  let t0 := str "<pre>" in
  let t1 := str "</pre><div>" in
  let t2 := str "</div><p>" in
  let t3 := str "</p>" in
  let script := str "let x = 1;" in
  let result := MarkUpCode kept_profiles (str "let x = 1;") in
  let message_log := str "console.log: hi<br/>" in
  fill (t0 ++ str "SCRIPT" ++ t1 ++ str "RESULT" ++ t2 ++ str "CONSOLE" ++ t3)
       script result message_log =
  t0 ++ script ++ t1 ++ result ++ t2 ++ message_log ++ t3.
Proof.
  cbv zeta.
  apply fill_plain; try reflexivity; apply plainb_plain; reflexivity.
Defined.

(** A placeholder name in the script is taken for the placeholder: when
    the script holds [RESULT] before the template does, the result is put
    into the copy of the script and the rest of the template is left as it
    is. *)
Theorem fill_placeholder_in_script
    (t0 t1 u v result message_log : jsstring) :
  occurs (str "SCRIPT") (t0 ++ str "SCRIP") = false ->
  occurs (str "RESULT") ((t0 ++ u) ++ str "RESUL") = false ->
  plain u -> plain v -> plain result ->
  fill (t0 ++ str "SCRIPT" ++ t1) (u ++ str "RESULT" ++ v) result
       message_log =
  replace_first (str "CONSOLE") message_log (t0 ++ u ++ result ++ v ++ t1).
Proof.
  intros H1 H2 Hu Hv Hr. unfold fill. cbn [fold_left]. f_equal.
  rewrite (@replace_first_at_plain (str "SCRIPT") (u ++ str "RESULT" ++ v) t0);
    try assumption; try discriminate.
  - replace (t0 ++ (u ++ str "RESULT" ++ v) ++ t1)
      with ((t0 ++ u) ++ str "RESULT" ++ v ++ t1)
      by now rewrite <- !app_assoc.
    rewrite (@replace_first_at_plain (str "RESULT") result (t0 ++ u)) by
      (assumption || discriminate).
    now rewrite <- !app_assoc.
  - apply plain_app; [exact Hu|]. apply plain_app; [|exact Hv].
    apply plainb_plain. reflexivity.
Qed.

Lemma fill_placeholder_in_script_witness :
  fill (str "<pre>" ++ str "SCRIPT" ++ str "</pre><div>RESULT</div>")
       (str "let " ++ str "RESULT" ++ str " = 1;") (str "annotated")
       (str "log") =
  replace_first (str "CONSOLE") (str "log")
    (str "<pre>" ++ str "let " ++ str "annotated" ++ str " = 1;" ++
     str "</pre><div>RESULT</div>").
Proof.
  apply fill_placeholder_in_script; try reflexivity;
    apply plainb_plain; reflexivity.
Defined.

(** ** [Server] *)

(** The line of a message in the log. *)
Lemma print_messages_lines (messages : list Message) (message_log : jsstring) :
  Forall (fun m => params_value m <> None) messages ->
  print_messages messages message_log =
  Some (message_log ++
        flat_map
          (fun m =>
             match params_value m with
             | Some value =>
                 str "console." ++ params_type m ++ str ": " ++
                 value ++ str "<br/>"
             | None => []
             end) messages).
Proof.
  intro H. revert message_log.
  induction H as [|m ms Hm _ IH]; intro message_log;
    cbn [print_messages flat_map].
  - now rewrite app_nil_r.
  - unfold print_message.
    destruct (params_value m) as [value|]; [|contradiction].
    rewrite IH. now rewrite <- !app_assoc.
Qed.

Lemma print_messages_throws (messages : list Message) (message_log : jsstring) :
  Exists (fun m => params_value m = None) messages ->
  print_messages messages message_log = None.
Proof.
  intro H. revert message_log.
  induction H as [m ms Hm|m ms _ IH]; intro message_log;
    cbn [print_messages]; unfold print_message.
  - now rewrite Hm.
  - destruct (params_value m); [apply IH | reflexivity].
Qed.

Lemma POST_is_POST : jsstring_eqb (str "POST") (str "POST") = true.
Proof. now apply jsstring_eqb_eq. Qed.

Section ServerFacts.
Variable R : Remote.
Variable readFile : jsstring -> jsstring + jsstring.
Variable query_script : jsstring -> option jsstring.
Variable error_toString : Reason -> jsstring.

Lemma toString_defined (e : Reason) :
  e <> ExceptionDescription None ->
  exists text, toString error_toString e = Some text.
Proof.
  intro H. destruct e as [x|[d|]|x|]; cbn; eauto. contradiction.
Qed.

(** The [POST] branch, for a body with a script. *)
Lemma Server_POST (r : RemoteState R) (request : Request)
    (script : jsstring) :
  method request = str "POST" ->
  GetPostBody query_script request = Some script ->
  Server R readFile query_script error_toString r request =
  Some (respond readFile (fst (collect R error_toString r script)),
        Some (snd (collect R error_toString r script))).
Proof.
  intros Hm Hs. unfold Server. rewrite Hm, POST_is_POST, Hs.
  now destruct (collect R error_toString r script).
Qed.

Lemma collect_session (r : RemoteState R) (script : jsstring) :
  snd (collect R error_toString r script) =
  snd (run_CollectProfile R r script).
Proof.
  unfold collect.
  destruct (run_CollectProfile R r script) as [[e|[[p|] msgs]] w];
    [reflexivity | | reflexivity].
  now destruct (print_messages msgs []).
Qed.

Lemma respond_page (page : Page) :
  respond readFile (inr page) =
  match readFile (str "typeprofile/template.html") with
  | inl error => inl (ReadError error)
  | inr template =>
      inr {| statusCode := 200; content_type := str "text/html";
             body := fill template (page_script page) (page_result page)
                          (page_log page) |}
  end.
Proof.
  unfold respond, ReadFile.
  now destruct (readFile (str "typeprofile/template.html")).
Qed.

Lemma collect_undefined (r : RemoteState R) (script : jsstring) :
  fst (run_CollectProfile R r script) = inl (ExceptionDescription None) ->
  fst (collect R error_toString r script) = inl TypeError.
Proof.
  unfold collect.
  destruct (run_CollectProfile R r script) as [[e|pm] w]; cbn [fst];
    [|discriminate].
  intro H. inversion H; subst e. reflexivity.
Qed.

Lemma collect_page (r : RemoteState R) (script : jsstring) :
  fst (run_CollectProfile R r script) <> inl (ExceptionDescription None) ->
  exists page, fst (collect R error_toString r script) = inr page.
Proof.
  unfold collect.
  destruct (run_CollectProfile R r script) as [[e|[[p|] msgs]] w];
    cbn [fst]; intro H.
  - destruct (@toString_defined e) as [text Ht]; [congruence|].
    unfold catch. rewrite Ht. eexists. reflexivity.
  - destruct (print_messages msgs []); eexists; reflexivity.
  - eexists. reflexivity.
Qed.

(** A request of another method than [POST] opens no session and runs no
    script: the page shows the example file with an empty result and an
    empty log, and the call is rejected when one of the two files cannot be
    read. *)
Theorem Server_GET (r : RemoteState R) (request : Request) :
  method request <> str "POST" ->
  (exists outcome,
     Server R readFile query_script error_toString r request =
     Some (outcome, None)) /\
  (forall script template,
     readFile (str "typeprofile/example.js") = inr script ->
     readFile (str "typeprofile/template.html") = inr template ->
     Server R readFile query_script error_toString r request =
     Some (inr {| statusCode := 200; content_type := str "text/html";
                  body := fill template script [] [] |}, None)) /\
  (forall error,
     readFile (str "typeprofile/example.js") = inl error ->
     Server R readFile query_script error_toString r request =
     Some (inl (ReadError error), None)) /\
  (forall script error,
     readFile (str "typeprofile/example.js") = inr script ->
     readFile (str "typeprofile/template.html") = inl error ->
     Server R readFile query_script error_toString r request =
     Some (inl (ReadError error), None)).
Proof.
  intro Hm. unfold Server, respond, ReadFile.
  assert (jsstring_eqb (method request) (str "POST") = false) as ->.
  { destruct (jsstring_eqb (method request) (str "POST")) eqn:E;
      [|reflexivity].
    apply jsstring_eqb_eq in E. contradiction. }
  destruct (readFile (str "typeprofile/example.js")) as [e1|script];
    destruct (readFile (str "typeprofile/template.html")) as [e2|template];
    cbn [page_script page_result page_log];
    (split; [eexists; reflexivity|]);
    (split; [|split]); intros; congruence.
Qed.

(** A [POST] request with a script runs one session on it, and the session
    is disconnected once, whatever follows.  A response is sent exactly
    when the call was not rejected with an absent description, for which
    [toString] throws in the [catch] block, and the template can be read;
    its status is 200 whatever became of the script. *)
Theorem Server_POST_session (r : RemoteState R) (request : Request)
    (script : jsstring) :
  method request = str "POST" ->
  GetPostBody query_script request = Some script ->
  exists outcome,
    Server R readFile query_script error_toString r request =
      Some (outcome, Some (snd (run_CollectProfile R r script))) /\
    disconnects (trace (snd (run_CollectProfile R r script))) = 1 /\
    (fst (run_CollectProfile R r script) = inl (ExceptionDescription None) ->
     outcome = inl (Thrown TypeError)) /\
    (fst (run_CollectProfile R r script) <> inl (ExceptionDescription None) ->
     (forall error,
        readFile (str "typeprofile/template.html") = inl error ->
        outcome = inl (ReadError error)) /\
     (forall template,
        readFile (str "typeprofile/template.html") = inr template ->
        exists page,
          outcome =
          inr {| statusCode := 200; content_type := str "text/html";
                 body := page |})).
Proof.
  intros Hm Hs. eexists. rewrite (@Server_POST r request script Hm Hs).
  rewrite collect_session. split; [reflexivity|]. split.
  { rewrite run_CollectProfile_protocol. cbn [snd log trace].
    rewrite disconnects_app, connected_protocol. reflexivity. }
  split.
  - intro H. now rewrite (collect_undefined r script H).
  - intro H. destruct (collect_page r script H) as [page ->].
    split; [intros error Hr | intros template Hr];
      rewrite respond_page, Hr; [reflexivity | eexists; reflexivity].
Qed.
End ServerFacts.

Section ServerPages.
Variable R : Remote.
Variable readFile : jsstring -> jsstring + jsstring.
Variable query_script : jsstring -> option jsstring.
Variable error_toString : Reason -> jsstring.

Lemma collect_rejected (r : RemoteState R) (script : jsstring)
    (reason : Reason) :
  fst (run_CollectProfile R r script) = inl reason ->
  fst (collect R error_toString r script) =
  catch error_toString reason
    {| page_script := script; page_result := []; page_log := [] |}.
Proof.
  unfold collect.
  destruct (run_CollectProfile R r script) as [[e|pm] w]; cbn [fst];
    [|discriminate].
  intro H. now inversion H.
Qed.

(** When a command of the session of a [POST] request is answered with an
    error, or with exception details that have a description, the page is
    still sent with status 200: it shows the script, an empty result and,
    as the log, the escaped text of the error or the escaped description.
    When the exception details have no description, [toString] throws in
    the [catch] block and nothing is sent. *)
Theorem Server_rejected_command (r : RemoteState R) (request : Request)
    (script template : jsstring) (c : Command) (reply : Reply) :
  method request = str "POST" ->
  GetPostBody query_script request = Some script ->
  readFile (str "typeprofile/template.html") = inr template ->
  In (EvPost c reply) (trace (snd (run_CollectProfile R r script))) ->
  (forall e,
     error reply = Some e ->
     Server R readFile query_script error_toString r request =
     Some (inr {| statusCode := 200; content_type := str "text/html";
                  body := fill template script []
                            (Escape (error_toString (RemoteError e))) |},
           Some (snd (run_CollectProfile R r script)))) /\
  (forall d,
     error reply = None ->
     res_exceptionDetails (reply_result reply) =
       Some {| description := Some d |} ->
     Server R readFile query_script error_toString r request =
     Some (inr {| statusCode := 200; content_type := str "text/html";
                  body := fill template script [] (Escape d) |},
           Some (snd (run_CollectProfile R r script)))) /\
  (error reply = None ->
   res_exceptionDetails (reply_result reply) =
     Some {| description := None |} ->
   Server R readFile query_script error_toString r request =
   Some (inl (Thrown TypeError),
         Some (snd (run_CollectProfile R r script)))).
Proof.
  intros Hm Hs Ht Hin.
  rewrite (@Server_POST R readFile query_script error_toString r request
             script Hm Hs), collect_session.
  split; [|split].
  - intros e He.
    assert (rejects reply (RemoteError e)) as Hrej
      by (unfold rejects; rewrite He; apply callback_error).
    destruct (@run_rejected R r script c reply _ Hin Hrej) as [Hout _].
    rewrite (collect_rejected r script Hout). cbn [catch toString].
    now rewrite respond_page, Ht.
  - intros d He Hd.
    assert (rejects reply (ExceptionDescription (Some d))) as Hrej
      by (unfold rejects; rewrite He;
          apply (@callback_exception _ {| description := Some d |} Hd)).
    destruct (@run_rejected R r script c reply _ Hin Hrej) as [Hout _].
    rewrite (collect_rejected r script Hout). cbn [catch toString].
    now rewrite respond_page, Ht.
  - intros He Hd.
    assert (rejects reply (ExceptionDescription None)) as Hrej
      by (unfold rejects; rewrite He;
          apply (@callback_exception _ {| description := None |} Hd)).
    destruct (@run_rejected R r script c reply _ Hin Hrej) as [Hout _].
    rewrite (collect_rejected r script Hout). reflexivity.
Qed.

(** When the session of a [POST] request returns, the page shows the
    script and the annotated script.  When every console message has a
    first argument, the log is one line for each message, in order, with
    the type and the value as they are; when one has none, the loop throws
    and the log is the escaped text of the [TypeError] instead, beside the
    annotated script. *)
Theorem Server_resolved (r : RemoteState R) (request : Request)
    (script template : jsstring) (p : option (list ScriptTypeProfile))
    (msgs : list Message) :
  method request = str "POST" ->
  GetPostBody query_script request = Some script ->
  readFile (str "typeprofile/template.html") = inr template ->
  fst (run_CollectProfile R r script) = inr (p, msgs) ->
  exists kept,
    p = Some kept /\
    (Forall (fun m => params_value m <> None) msgs ->
     Server R readFile query_script error_toString r request =
     Some (inr {| statusCode := 200; content_type := str "text/html";
                  body :=
                    fill template script (MarkUpCode kept script)
                      (flat_map
                         (fun m =>
                            match params_value m with
                            | Some value =>
                                str "console." ++ params_type m ++
                                str ": " ++ value ++ str "<br/>"
                            | None => []
                            end) msgs) |},
           Some (snd (run_CollectProfile R r script)))) /\
    (Exists (fun m => params_value m = None) msgs ->
     Server R readFile query_script error_toString r request =
     Some (inr {| statusCode := 200; content_type := str "text/html";
                  body :=
                    fill template script (MarkUpCode kept script)
                      (Escape (error_toString TypeError)) |},
           Some (snd (run_CollectProfile R r script)))).
Proof.
  intros Hm Hs Ht Hrun.
  destruct (@run_resolved R r script p msgs Hrun) as [kept ->].
  exists kept. split; [reflexivity|].
  rewrite (@Server_POST R readFile query_script error_toString r request
             script Hm Hs), collect_session.
  unfold collect.
  destruct (run_CollectProfile R r script) as [[e|pm] w]; cbn [fst] in Hrun;
    [discriminate|].
  inversion Hrun; subst pm. split; intro H.
  - rewrite (print_messages_lines [] H). cbn [fst app].
    now rewrite respond_page, Ht.
  - rewrite (print_messages_throws [] H). cbn [fst catch toString].
    now rewrite respond_page, Ht.
Qed.
End ServerPages.

Lemma Server_GET_witness :
  method get_request <> str "POST" /\
  Server (scripted answer_ok) (two_files (str "var a;") page_template)
    script_after_key error_text tt get_request =
  Some (inr {| statusCode := 200; content_type := str "text/html";
               body := fill page_template (str "var a;") [] [] |}, None).
Proof.
  assert (method get_request <> str "POST") as H by discriminate.
  split; [exact H|].
  exact (proj1 (proj2 (@Server_GET (scripted answer_ok)
                         (two_files (str "var a;") page_template)
                         script_after_key error_text tt get_request H))
           (str "var a;") page_template eq_refl eq_refl).
Defined.

Lemma Server_POST_session_witness :
  method post_request = str "POST" /\
  GetPostBody script_after_key post_request = Some (str "x;") /\
  exists outcome,
    Server (scripted answer_throw_string)
      (two_files (str "var a;") page_template)
      script_after_key error_text tt post_request =
      Some (outcome,
            Some (snd (run_CollectProfile (scripted answer_throw_string) tt
                         (str "x;")))) /\
    disconnects
      (trace (snd (run_CollectProfile (scripted answer_throw_string) tt
                     (str "x;")))) = 1 /\
    outcome = inl (Thrown TypeError).
Proof.
  assert (method post_request = str "POST") as Hm by reflexivity.
  assert (GetPostBody script_after_key post_request = Some (str "x;"))
    as Hs by reflexivity.
  split; [exact Hm|]. split; [exact Hs|].
  destruct (@Server_POST_session (scripted answer_throw_string)
              (two_files (str "var a;") page_template)
              script_after_key error_text tt post_request (str "x;") Hm Hs)
    as (outcome & Hserver & Hd & Hthrow & _).
  exists outcome. split; [exact Hserver|]. split; [exact Hd|].
  apply Hthrow. reflexivity.
Defined.

Lemma Server_rejected_command_witness :
  let c := Runtime_runScript (Some (str "42")) in
  method post_request = str "POST" /\
  GetPostBody script_after_key post_request = Some (str "x;") /\
  In (EvPost c (answer_throw c))
     (trace (snd (run_CollectProfile (scripted answer_throw) tt
                    (str "x;")))) /\
  Server (scripted answer_throw) (two_files (str "var a;") page_template)
    script_after_key error_text tt post_request =
  Some (inr {| statusCode := 200; content_type := str "text/html";
               body := fill page_template (str "x;") []
                         (Escape (str "Error: boom")) |},
        Some (snd (run_CollectProfile (scripted answer_throw) tt
                     (str "x;")))).
Proof.
  cbv zeta.
  assert (method post_request = str "POST") as Hm by reflexivity.
  assert (GetPostBody script_after_key post_request = Some (str "x;"))
    as Hs by reflexivity.
  assert (two_files (str "var a;") page_template
            (str "typeprofile/template.html") = inr page_template) as Ht
    by reflexivity.
  assert (In (EvPost (Runtime_runScript (Some (str "42")))
                (answer_throw (Runtime_runScript (Some (str "42")))))
             (trace (snd (run_CollectProfile (scripted answer_throw) tt
                            (str "x;"))))) as Hin
    by (vm_compute; tauto).
  split; [exact Hm|]. split; [exact Hs|]. split; [exact Hin|].
  exact (proj1 (proj2 (@Server_rejected_command (scripted answer_throw)
                         (two_files (str "var a;") page_template)
                         script_after_key error_text tt post_request
                         (str "x;") page_template _ _ Hm Hs Ht Hin))
           (str "Error: boom") eq_refl eq_refl).
Defined.

Lemma Server_resolved_witness :
  method post_request = str "POST" /\
  GetPostBody script_after_key post_request = Some (str "x;") /\
  fst (run_CollectProfile (scripted answer_bare_log) tt (str "x;")) =
    inr (Some kept_profiles,
         [ {| params_type := str "log"; params_value := None |} ]) /\
  Server (scripted answer_bare_log) (two_files (str "var a;") page_template)
    script_after_key error_text tt post_request =
  Some (inr {| statusCode := 200; content_type := str "text/html";
               body := fill page_template (str "x;")
                         (MarkUpCode kept_profiles (str "x;"))
                         (Escape (error_text TypeError)) |},
        Some (snd (run_CollectProfile (scripted answer_bare_log) tt
                     (str "x;")))).
Proof.
  assert (method post_request = str "POST") as Hm by reflexivity.
  assert (GetPostBody script_after_key post_request = Some (str "x;"))
    as Hs by reflexivity.
  assert (two_files (str "var a;") page_template
            (str "typeprofile/template.html") = inr page_template) as Ht
    by reflexivity.
  assert (fst (run_CollectProfile (scripted answer_bare_log) tt (str "x;")) =
          inr (Some kept_profiles,
               [ {| params_type := str "log"; params_value := None |} ]))
    as Hrun by reflexivity.
  split; [exact Hm|]. split; [exact Hs|]. split; [exact Hrun|].
  destruct (@Server_resolved (scripted answer_bare_log)
              (two_files (str "var a;") page_template)
              script_after_key error_text tt post_request
              (str "x;") page_template _ _ Hm Hs Ht Hrun)
    as (kept & Hk & _ & Hthrow).
  inversion Hk; subst kept.
  apply Hthrow. constructor. reflexivity.
Defined.
